(** * Input validators of the commission calculator

    A shallow embedding of [src/app/lib/validation.ts] and of the second
    copy of the validators that is carried at the end of
    [src/app/lib/api.ts], together with the part of the JavaScript
    runtime they rely on: strings as sequences of UTF-16 code units,
    [String.prototype.trim], [RegExp.prototype.test] for the handful of
    regular-expression constructs the sources use, and the comparison of
    numbers with [NaN]. *)

From Stdlib Require Import ZArith QArith List Bool String Ascii Lia.
Import ListNotations.

Local Open Scope Z_scope.

(** ** The JavaScript runtime the validators use *)

Module JS.

(** A string is a sequence of UTF-16 code units. *)
Definition jsstring := list Z.

(** An ASCII literal of the source as a JavaScript string. *)
Fixpoint lit (s : string) : jsstring :=
  match s with
  | EmptyString => []
  | String a s' => Z.of_N (N_of_ascii a) :: lit s'
  end.

Definition between (lo hi c : Z) : bool := (lo <=? c) && (c <=? hi).

(** [WhiteSpace] and [LineTerminator] of ECMAScript: the code units that
    [trim] strips and that [\s] matches. *)
Definition is_space (c : Z) : bool :=
  between 9 13 c            (* TAB, LF, VT, FF, CR *)
  || (c =? 32)              (* SPACE *)
  || (c =? 160)             (* NO-BREAK SPACE *)
  || (c =? 5760)            (* U+1680 *)
  || between 8192 8202 c    (* U+2000 .. U+200A *)
  || (c =? 8232)            (* U+2028 LINE SEPARATOR *)
  || (c =? 8233)            (* U+2029 PARAGRAPH SEPARATOR *)
  || (c =? 8239)            (* U+202F *)
  || (c =? 8287)            (* U+205F *)
  || (c =? 12288)           (* U+3000 *)
  || (c =? 65279).          (* U+FEFF *)

Definition is_digit (c : Z) : bool := between 48 57 c.

Fixpoint trimStart (s : jsstring) : jsstring :=
  match s with
  | [] => []
  | c :: s' => if is_space c then trimStart s' else s
  end.

Definition trimEnd (s : jsstring) : jsstring := rev (trimStart (rev s)).

Definition trim (s : jsstring) : jsstring := trimEnd (trimStart s).

(** [s === ''] *)
Definition is_empty (s : jsstring) : bool :=
  match s with [] => true | _ :: _ => false end.

(** *** Regular expressions *)

(** A member of a character class, or an atom standing alone. *)
Inductive cclass : Type :=
| Single (c : Z)            (* a literal character *)
| Range (lo hi : Z)         (* lo-hi *)
| Digit                     (* \d *)
| Space.                    (* \s *)

Definition in_cclass (c : Z) (x : cclass) : bool :=
  match x with
  | Single d => c =? d
  | Range lo hi => between lo hi c
  | Digit => is_digit c
  | Space => is_space c
  end.

Definition in_set (xs : list cclass) (c : Z) : bool :=
  existsb (in_cclass c) xs.

(** The constructs that occur in the sources: [^], [$], an atom, a
    bracketed class, juxtaposition, [?] and [+]. *)
Inductive regex : Type :=
| Bol
| Eol
| One (x : cclass)
| Set_ (xs : list cclass)
| Cat (r1 r2 : regex)
| Opt (r : regex)
| Plus (r : regex).

(** The matcher is a backtracking one in continuation-passing style,
    as in the ECMAScript definition.  A run yields [Some b] when it
    finishes and [None] when the iteration bound of a repetition is
    used up before it does. *)
Definition cont := nat -> jsstring -> option bool.

Definition orelse (a b : option bool) : option bool :=
  match a with
  | Some true => Some true
  | Some false => b
  | None => None
  end.

(** [r+]: match [r], then either go round again or leave.  Another round
    is taken only after the last one consumed input (the empty check of
    the standard), so at most [length s] further rounds are possible;
    [n] counts them down. *)
Fixpoint repeat_match (body : nat -> jsstring -> cont -> option bool)
    (k : cont) (n : nat) (pos : nat) (s : jsstring) : option bool :=
  body pos s (fun pos' s' =>
    orelse
      (if (List.length s' <? List.length s)%nat
       then match n with
            | O => None
            | S n' => repeat_match body k n' pos' s'
            end
       else Some false)
      (k pos' s')).

Fixpoint rmatch (r : regex) (pos : nat) (s : jsstring) (k : cont)
    {struct r} : option bool :=
  match r with
  | Bol => if (pos =? 0)%nat then k pos s else Some false
  | Eol => match s with [] => k pos s | _ :: _ => Some false end
  | One x =>
      match s with
      | c :: s' => if in_cclass c x then k (S pos) s' else Some false
      | [] => Some false
      end
  | Set_ xs =>
      match s with
      | c :: s' => if in_set xs c then k (S pos) s' else Some false
      | [] => Some false
      end
  | Cat r1 r2 => rmatch r1 pos s (fun pos' s' => rmatch r2 pos' s' k)
  | Opt r1 => orelse (rmatch r1 pos s k) (k pos s)
  | Plus r1 => repeat_match (rmatch r1) k (List.length s) pos s
  end.

Definition accept : cont := fun _ _ => Some true.

(** Without the sticky flag a match is attempted at every start index,
    from 0 to the length of the input. *)
Fixpoint search (r : regex) (pos : nat) (s : jsstring) : option bool :=
  orelse (rmatch r pos s accept)
         (match s with
          | [] => Some false
          | _ :: s' => search r (S pos) s'
          end).

Definition RegExp_exec (r : regex) (s : jsstring) : option bool :=
  search r 0 s.

(** [r.test(s)] *)
Definition RegExp_test (r : regex) (s : jsstring) : bool :=
  match RegExp_exec r s with
  | Some b => b
  | None => false
  end.

(** *** Numbers *)

(** A number is [NaN], an infinity or a finite value; every finite
    double is a rational, and comparing doubles is comparing them. *)
Inductive number : Type :=
| NaN
| PosInf
| NegInf
| Fin (q : Q).

Definition of_int (z : Z) : number := Fin (inject_Z z).

Definition isNaN (x : number) : bool :=
  match x with NaN => true | _ => false end.

(** [x < y]; false as soon as one side is [NaN]. *)
Definition lt (x y : number) : bool :=
  match x, y with
  | NaN, _ | _, NaN => false
  | PosInf, _ => false
  | _, NegInf => false
  | NegInf, _ => true
  | _, PosInf => true
  | Fin a, Fin b => negb (Qle_bool b a)
  end.

(** [x > y] *)
Definition gt (x y : number) : bool := lt y x.

End JS.

Import JS.

(** [errors.push(msg)] on the local array, as a new value of it. *)
Definition push (errors : list jsstring) (msg : jsstring) : list jsstring :=
  errors ++ [msg].

(** ** [src/app/lib/validation.ts] *)

Module Validation.

(** [/^-?\d+$/] *)
Definition integerRegex : regex :=
  Cat Bol (Cat (Opt (One (Single 45))) (Cat (Plus (One Digit)) Eol)).

Definition isInteger (value : jsstring) : bool :=
  RegExp_test integerRegex (trim value).

(** [/^[a-zA-Z\s]+$/] *)
Definition englishOnlyRegex : regex :=
  Cat Bol (Cat (Plus (Set_ [Range 97 122; Range 65 90; Space])) Eol).

Definition validateName (name : jsstring) : jsstring :=
  if is_empty (trim name) then
    lit "Please enter Employee Name"
  else if negb (RegExp_test englishOnlyRegex name) then
    lit "Name is not valid, please enter in english."
  else
    [].

Definition validateNumericField (value fieldName : jsstring) : jsstring :=
  if is_empty (trim value) then
    lit "Please enter " ++ fieldName
  else if negb (isInteger value) then
    lit "Please enter with integer or whole number"
  else
    [].

Definition validateInputRanges (locks stocks barrels : number)
  : list jsstring :=
  let errors := [] in
  let errors :=
    if isNaN locks || lt locks (of_int 1) || gt locks (of_int 70)
    then push errors (lit "Locks must be between 1 and 70")
    else errors in
  let errors :=
    if isNaN stocks || lt stocks (of_int 1) || gt stocks (of_int 80)
    then push errors (lit "Stocks must be between 1 and 80")
    else errors in
  let errors :=
    if isNaN barrels || lt barrels (of_int 1) || gt barrels (of_int 90)
    then push errors (lit "Barrels must be between 1 and 90")
    else errors in
  errors.

End Validation.

(** ** The validators at the end of [src/app/lib/api.ts] *)

Module Api.

(** [/^-?\d+$/] *)
Definition integerRegex : regex :=
  Cat Bol (Cat (Opt (One (Single 45))) (Cat (Plus (One Digit)) Eol)).

Definition isInteger (value : jsstring) : bool :=
  RegExp_test integerRegex (trim value).

(** [/^[a-zA-Z\u0E00-\u0E7F\s]+$/], the range being U+0E00 .. U+0E7F *)
Definition thaiOrEnglishRegex : regex :=
  Cat Bol
    (Cat (Plus (Set_ [Range 97 122; Range 65 90; Range 3584 3711; Space]))
         Eol).

Definition validateName (name : jsstring) : jsstring :=
  if is_empty (trim name) then
    lit "Please enter Employee Name"
  else if negb (RegExp_test thaiOrEnglishRegex name) then
    lit "Name must be Thai or English letters only"
  else
    [].

Definition validateNumericField (value fieldName : jsstring) : jsstring :=
  if is_empty (trim value) then
    lit "Please enter " ++ fieldName
  else if negb (isInteger value) then
    lit "Please enter with integer or whole number"
  else
    [].

Definition validateInputRanges (locks stocks barrels : number)
  : list jsstring :=
  let errors := [] in
  let errors :=
    if isNaN locks || lt locks (of_int 1) || gt locks (of_int 70)
    then push errors (lit "Locks must be between 1 and 70")
    else errors in
  let errors :=
    if isNaN stocks || lt stocks (of_int 1) || gt stocks (of_int 80)
    then push errors (lit "Stocks must be between 1 and 80")
    else errors in
  let errors :=
    if isNaN barrels || lt barrels (of_int 1) || gt barrels (of_int 90)
    then push errors (lit "Barrels must be between 1 and 90")
    else errors in
  errors.

End Api.

(** ** The vocabulary of the specification *)

Definition is_latin (c : Z) : bool := between 97 122 c || between 65 90 c.

(** Thai script: U+0E00 .. U+0E7F. *)
Definition is_thai (c : Z) : bool := between 3584 3711 c.

Definition bilingual_char (c : Z) : bool :=
  is_latin c || is_thai c || is_space c.

Definition latin_char (c : Z) : bool := is_latin c || is_space c.

(** An optional minus sign followed by one or more decimal digits. *)
Definition integer_literal (s : jsstring) : Prop :=
  exists sign digits,
    s = sign ++ digits /\
    (sign = [] \/ sign = [45]) /\
    digits <> [] /\
    Forall (fun c => 48 <= c <= 57) digits.

(** Inside the inclusive bounds [lo .. hi]; [NaN] is inside none. *)
Definition in_range (lo hi : Z) (x : number) : Prop :=
  match x with
  | Fin q => (inject_Z lo <= q)%Q /\ (q <= inject_Z hi)%Q
  | _ => False
  end.

Definition locksMsg : jsstring := lit "Locks must be between 1 and 70".
Definition stocksMsg : jsstring := lit "Stocks must be between 1 and 80".
Definition barrelsMsg : jsstring := lit "Barrels must be between 1 and 90".

Definition emptyNameMsg : jsstring := lit "Please enter Employee Name".
Definition disallowedMsg : jsstring :=
  lit "Name must be Thai or English letters only".
Definition englishOnlyMsg : jsstring :=
  lit "Name is not valid, please enter in english.".

Definition emptyFieldMsg (label : jsstring) : jsstring :=
  lit "Please enter " ++ label.
Definition integerFormatMsg : jsstring :=
  lit "Please enter with integer or whole number".

(** [t] occurs in [s] as a contiguous run. *)
Definition incorporates (s t : jsstring) : Prop :=
  exists pre post, s = pre ++ t ++ post.

(** "Ken " followed by U+0E40 U+0E04 U+0E19. *)
Definition ken : jsstring := lit "Ken " ++ [3648; 3588; 3609].

(** A non-empty string all of whose code units satisfy [p]. *)
Definition all_of (p : Z -> bool) (s : jsstring) : bool :=
  negb (is_empty s) && forallb p s.

(** One step of the matcher on a test of a single code unit. *)
Definition class_step (p : Z -> bool) (pos : nat) (s : jsstring) (k : cont)
  : option bool :=
  match s with
  | c :: s' => if p c then k (S pos) s' else Some false
  | [] => Some false
  end.

Definition at_end : cont := fun pos s => rmatch Eol pos s accept.

(** The reading of [^-?\d+$] as a test: a run of digits, after a minus
    sign when the string starts with one. *)
Definition signed_digits (s : jsstring) : bool :=
  match s with
  | c :: d => if c =? 45 then all_of is_digit d else all_of is_digit s
  | [] => false
  end.

(** What one of the three checks of [validateInputRanges] adds to the
    array. *)
Definition report (flagged : bool) (msg : jsstring) : list jsstring :=
  if flagged then [msg] else [].

(** ** More of the runtime, for the page *)

Module Builtins.

(** The value of a code unit as a digit in [radix], if it is one. *)
Definition digit_value (radix c : Z) : option Z :=
  let v := if between 48 57 c then Some (c - 48)
           else if between 97 122 c then Some (c - 97 + 10)
           else if between 65 90 c then Some (c - 65 + 10)
           else None in
  match v with
  | Some d => if d <? radix then Some d else None
  | None => None
  end.

(** The digits of the longest prefix made of digits in [radix]. *)
Fixpoint take_digits (radix : Z) (s : jsstring) : list Z :=
  match s with
  | [] => []
  | c :: s' =>
      match digit_value radix c with
      | Some d => d :: take_digits radix s'
      | None => []
      end
  end.

Definition digits_value (radix : Z) (ds : list Z) : Z :=
  fold_left (fun acc d => acc * radix + d) ds 0.

(** A sign, if the string starts with one, and the rest. *)
Definition strip_sign (s : jsstring) : Z * jsstring :=
  match s with
  | c :: s' =>
      if c =? 45 then (-1, s') else if c =? 43 then (1, s') else (1, s)
  | [] => (1, [])
  end.

(** With no radix given: 16 after a prefix [0x] or [0X], else 10. *)
Definition strip_prefix (s : jsstring) : Z * jsstring :=
  match s with
  | c :: x :: s' =>
      if (c =? 48) && ((x =? 120) || (x =? 88)) then (16, s') else (10, s)
  | _ => (10, s)
  end.

Section Conversion.

(** The Number value of an integer: the integer itself up to 2^53 in
    magnitude, the runtime's rounding of it beyond.  The two zeros are
    one value here, as [<], [>] and [||] do not tell them apart. *)
Variable to_number : Z -> number.

(** [parseInt(string)], no radix. *)
Definition parseInt (string : jsstring) : number :=
  let '(sign, s) := strip_sign (trimStart string) in
  let '(radix, s) := strip_prefix s in
  match take_digits radix s with
  | [] => NaN
  | ds => to_number (sign * digits_value radix ds)
  end.

End Conversion.

(** [NaN] and zero are the falsy numbers. *)
Definition truthy (x : number) : bool :=
  match x with
  | NaN => false
  | Fin q => negb (Qeq_bool q 0)
  | _ => true
  end.

(** [x || y] on numbers *)
Definition number_or (x y : number) : number := if truthy x then x else y.

(** [s || d] on strings: the empty string is the falsy one. *)
Definition string_or (s d : jsstring) : jsstring :=
  if is_empty s then d else s.

(** [x !== y] on numbers; [NaN] differs from everything, itself too. *)
Definition strict_neq (x y : number) : bool :=
  match x, y with
  | Fin a, Fin b => negb (Qeq_bool a b)
  | PosInf, PosInf => false
  | NegInf, NegInf => false
  | _, _ => true
  end.

Fixpoint starts_with (s t : jsstring) : bool :=
  match t, s with
  | [], _ => true
  | _ :: _, [] => false
  | d :: t', c :: s' => (c =? d) && starts_with s' t'
  end.

(** [s.includes(t)] *)
Fixpoint includes (s t : jsstring) : bool :=
  starts_with s t
  || match s with
     | [] => false
     | _ :: s' => includes s' t
     end.

End Builtins.

Import Builtins.

(** ** [lib/types] and the interfaces of [lib/api.ts] *)

Module Entry.
Record t : Type := mk {
  id : number;
  name : jsstring;
  locks : number;
  stocks : number;
  barrels : number;
  sales : number;
  commission : number;
  isValid : bool;
  errors : list jsstring
}.
End Entry.

Module FieldErrors.
Record t : Type := mk {
  name : jsstring;
  locks : jsstring;
  stocks : jsstring;
  barrels : jsstring
}.
End FieldErrors.

Module CalculateRequest.
Record t : Type := mk {
  name : jsstring;
  locks : number;
  stocks : number;
  barrels : number
}.
End CalculateRequest.

Module ResponseData.
Record t : Type := mk {
  name : jsstring;
  locks : number;
  stocks : number;
  barrels : number;
  sales : number;
  commission : number
}.
End ResponseData.

(** [data] and [errors] are optional. *)
Module CalculateResponse.
Record t : Type := mk {
  success : bool;
  data : option ResponseData.t;
  errors : option (list jsstring)
}.
End CalculateResponse.

(** How the awaited call ends: with a response, or by throwing; [message]
    is the message of the thrown value when that is an [Error]. *)
Inductive api_outcome : Type :=
| Resolved (response : CalculateResponse.t)
| Thrown (message : option jsstring).

(** ** [src/app/page.tsx] *)

Module Page.

(** The state the component holds in its hooks. *)
Record State : Type := mkState {
  name : jsstring;
  locks : jsstring;
  stocks : jsstring;
  barrels : jsstring;
  isLoading : bool;
  entries : list Entry.t;
  entryCount : number;
  fieldErrors : FieldErrors.t
}.

Definition setIsLoading (st : State) (v : bool) : State :=
  mkState (name st) (locks st) (stocks st) (barrels st) v
          (entries st) (entryCount st) (fieldErrors st).

Definition setEntries (st : State) (v : list Entry.t) : State :=
  mkState (name st) (locks st) (stocks st) (barrels st) (isLoading st)
          v (entryCount st) (fieldErrors st).

Definition setEntryCount (st : State) (v : number) : State :=
  mkState (name st) (locks st) (stocks st) (barrels st) (isLoading st)
          (entries st) v (fieldErrors st).

Definition setFieldErrors (st : State) (v : FieldErrors.t) : State :=
  mkState (name st) (locks st) (stocks st) (barrels st) (isLoading st)
          (entries st) (entryCount st) v.

(** [if (e) allErrors.push(e)] *)
Definition push_if (allErrors : list jsstring) (e : jsstring)
  : list jsstring :=
  if is_empty e then allErrors else push allErrors e.

Section Handlers.

Variable to_number : Z -> number.

(** [+] on numbers: the sum, rounded by the runtime. *)
Variable add : number -> number -> number.

(** The three counts as [handleCalculate] reads them. *)
Definition parsed (field : jsstring) : number :=
  number_or (parseInt to_number field) (of_int 0).

(** The list [allErrors] of [handleCalculate]. *)
Definition allErrors (st : State) : list jsstring :=
  let nameError := Validation.validateName (name st) in
  let locksError := Validation.validateNumericField (locks st) (lit "Locks") in
  let stocksError :=
    Validation.validateNumericField (stocks st) (lit "Stocks") in
  let barrelsError :=
    Validation.validateNumericField (barrels st) (lit "Barrels") in
  let l := parsed (locks st) in
  let s := parsed (stocks st) in
  let b := parsed (barrels st) in
  let allErrors := [] in
  let allErrors := push_if allErrors nameError in
  let allErrors := push_if allErrors locksError in
  let allErrors := push_if allErrors stocksError in
  let allErrors := push_if allErrors barrelsError in
  let rangeErrors := Validation.validateInputRanges l s b in
  allErrors ++ rangeErrors.

Definition isClientValid (st : State) : bool :=
  (List.length (allErrors st) =? 0)%nat.

(** The argument of the call to the API. *)
Definition apiRequest (st : State) : CalculateRequest.t :=
  CalculateRequest.mk (trim (name st))
    (parsed (locks st)) (parsed (stocks st)) (parsed (barrels st)).

(** The entry recorded when no result came back. *)
Definition failedEntry (st : State) (errors : list jsstring) : Entry.t :=
  Entry.mk (add (entryCount st) (of_int 1))
    (string_or (name st) (lit "Employee"))
    (parsed (locks st)) (parsed (stocks st)) (parsed (barrels st))
    (of_int 0) (of_int 0) false errors.

Definition record_entry (st : State) (newEntry : Entry.t) : State :=
  setEntryCount (setEntries st (entries st ++ [newEntry]))
                (add (entryCount st) (of_int 1)).

Definition handleCalculate (st : State)
    (calculateCommissionAPI : CalculateRequest.t -> api_outcome) : State :=
  let newFieldErrors :=
    FieldErrors.mk
      (Validation.validateName (name st))
      (Validation.validateNumericField (locks st) (lit "Locks"))
      (Validation.validateNumericField (stocks st) (lit "Stocks"))
      (Validation.validateNumericField (barrels st) (lit "Barrels")) in
  let st := setFieldErrors st newFieldErrors in
  if negb (isClientValid st) then
    record_entry st (failedEntry st (allErrors st))
  else
    let st := setIsLoading st true in
    let st :=
      match calculateCommissionAPI (apiRequest st) with
      | Resolved response =>
          match CalculateResponse.success response,
                CalculateResponse.data response with
          | true, Some data =>
              record_entry st
                (Entry.mk (add (entryCount st) (of_int 1))
                   (ResponseData.name data)
                   (ResponseData.locks data)
                   (ResponseData.stocks data)
                   (ResponseData.barrels data)
                   (ResponseData.sales data)
                   (ResponseData.commission data)
                   true [])
          | _, _ =>
              record_entry st
                (failedEntry st
                   (match CalculateResponse.errors response with
                    | Some errors => errors
                    | None => [lit "Unknown error from server"]
                    end))
          end
      | Thrown message =>
          record_entry st
            (failedEntry st
               [lit "Error: "
                ++ match message with
                   | Some m => m
                   | None => lit "Unknown error"
                   end])
      end in
    setIsLoading st false.

End Handlers.

Definition handleReset (st : State) : State :=
  mkState [] [] [] [] (isLoading st) (entries st) (entryCount st)
          (FieldErrors.mk [] [] [] []).

Definition handleClearHistory (st : State) : State :=
  setEntryCount (setEntries st []) (of_int 0).

Definition handleDeleteEntry (st : State) (id : number) : State :=
  setEntries st
    (filter (fun entry => strict_neq (Entry.id entry) id) (entries st)).


Section Totals.

Variable add : number -> number -> number.



End Totals.

(** Whether the history marks a count of an entry as wrong:
    [!entry.isValid && entry.errors.some(e => e.includes(label))]. *)
Definition marked (label : jsstring) (entry : Entry.t) : bool :=
  negb (Entry.isValid entry)
  && existsb (fun e => includes e label) (Entry.errors entry).

End Page.

(** The decimal value of a string of digits, and of an integer literal. *)
Definition decimal (digits : jsstring) : Z :=
  fold_left (fun acc c => acc * 10 + (c - 48)) digits 0.

Definition literal_value (s : jsstring) : Z :=
  match s with
  | c :: d => if c =? 45 then - decimal d else decimal s
  | [] => 0
  end.

(** A count that passes: an integer literal once trimmed, within
    [1 .. hi]. *)
Definition good_count (hi : Z) (field : jsstring) : Prop :=
  integer_literal (trim field) /\ 1 <= literal_value (trim field) <= hi.

(** The component as it starts, with the four inputs filled in. *)
Definition filled_form (name locks stocks barrels : jsstring) : Page.State :=
  Page.mkState name locks stocks barrels false [] (of_int 0)
               (FieldErrors.mk [] [] [] []).

(** The sum of two numbers where the runtime has nothing to round. *)
Definition plain_add (x y : number) : number :=
  match x, y with
  | Fin a, Fin b => Fin (Qred (a + b))
  | NaN, _ | _, NaN => NaN
  | PosInf, NegInf | NegInf, PosInf => NaN
  | PosInf, _ | _, PosInf => PosInf
  | NegInf, _ | _, NegInf => NegInf
  end.

(** The history is numbered up to [n]: the entry count is [n], every
    entry carries one of the numbers 1 .. [n], and no two carry the same. *)
Definition numbered (n : Z) (st : Page.State) : Prop :=
  0 <= n
  /\ Page.entryCount st = of_int n
  /\ Forall (fun e => exists k, 1 <= k <= n /\ Entry.id e = of_int k)
            (Page.entries st)
  /\ NoDup (map Entry.id (Page.entries st)).

(** ** The regular-expression engine *)

Section Engine.

Lemma orelse_defined (a b : option bool) :
  a <> None -> b <> None -> orelse a b <> None.
Proof.
  destruct a as [[|]|]; simpl; congruence.
Qed.

(** A repetition finishes within its bound once its body does. *)
Lemma repeat_match_defined body k :
  (forall pos s k',
      (forall pos' s', (List.length s' <= List.length s)%nat ->
                       k' pos' s' <> None) ->
      body pos s k' <> None) ->
  forall n pos s,
    (List.length s <= n)%nat ->
    (forall pos' s', (List.length s' <= List.length s)%nat ->
                     k pos' s' <> None) ->
    repeat_match body k n pos s <> None.
Proof.
  intros Hbody n.
  induction n as [|n IH]; intros pos s Hn Hk; simpl;
    apply Hbody; intros pos' s' Hle; apply orelse_defined; auto;
    destruct (Nat.ltb_spec (List.length s') (List.length s)) as [Hlt|Hge];
    try discriminate.
  - lia.
  - apply IH; [lia|]. intros p2 s2 H2. apply Hk. lia.
Qed.

Lemma rmatch_defined r :
  forall pos s k,
    (forall pos' s', (List.length s' <= List.length s)%nat ->
                     k pos' s' <> None) ->
    rmatch r pos s k <> None.
Proof.
  induction r as [| |x|xs|r1 IH1 r2 IH2|r1 IH1|r1 IH1]; intros pos s k Hk;
    simpl.
  - destruct (pos =? 0)%nat; [apply Hk; lia|discriminate].
  - destruct s; [apply Hk; lia|discriminate].
  - destruct s as [|c s']; [discriminate|].
    destruct (in_cclass c x); [apply Hk; simpl; lia|discriminate].
  - destruct s as [|c s']; [discriminate|].
    destruct (in_set xs c); [apply Hk; simpl; lia|discriminate].
  - apply IH1. intros pos' s' Hle. apply IH2.
    intros p2 s2 H2. apply Hk. lia.
  - apply orelse_defined; [apply IH1; exact Hk|apply Hk; lia].
  - apply repeat_match_defined; auto.
Qed.

Lemma search_defined r : forall s pos, search r pos s <> None.
Proof.
  induction s as [|c s IH]; intros pos; simpl; apply orelse_defined;
    try discriminate; try apply IH;
    apply rmatch_defined; intros; discriminate.
Qed.

Lemma RegExp_exec_test r s : RegExp_exec r s = Some (RegExp_test r s).
Proof.
  unfold RegExp_test. destruct (RegExp_exec r s) eqn:E; [reflexivity|].
  exfalso. exact (search_defined r s 0%nat E).
Qed.

(** An expression that starts with [^] can only match at index 0. *)
Lemma search_bol_later r : forall s pos, search (Cat Bol r) (S pos) s = Some false.
Proof.
  induction s as [|c s IH]; intros pos; simpl; [reflexivity|apply IH].
Qed.

Lemma exec_bol r s b :
  rmatch r 0 s accept = Some b -> RegExp_exec (Cat Bol r) s = Some b.
Proof.
  intros H. unfold RegExp_exec.
  destruct s as [|c s]; simpl in *; rewrite H.
  - destruct b; reflexivity.
  - rewrite search_bol_later. destruct b; reflexivity.
Qed.

(** [p+$] on a class test [p]: the whole rest is a non-empty run of [p]. *)
Lemma repeat_class_at_end p :
  forall n s pos,
    (List.length s <= n)%nat ->
    repeat_match (class_step p) at_end n pos s = Some (all_of p s).
Proof.
  induction n as [|n IH]; intros s pos Hn.
  - destruct s; [reflexivity|simpl in Hn; lia].
  - destruct s as [|c s']; [reflexivity|].
    simpl in Hn.
    change (repeat_match (class_step p) at_end (S n) pos (c :: s'))
      with (if p c
            then orelse
                   (if (List.length s' <? List.length (c :: s'))%nat
                    then repeat_match (class_step p) at_end n (S pos) s'
                    else Some false)
                   (at_end (S pos) s')
            else Some false).
    unfold all_of at 1. simpl forallb. simpl is_empty. simpl negb.
    destruct (p c); [|reflexivity].
    replace (List.length s' <? List.length (c :: s'))%nat with true
      by (symmetry; apply Nat.ltb_lt; simpl; lia).
    rewrite IH by lia.
    destruct s' as [|d s'']; [reflexivity|].
    unfold all_of, at_end; simpl.
    destruct (p d && forallb p s''); reflexivity.
Qed.

Lemma exec_set_plus xs s :
  RegExp_exec (Cat Bol (Cat (Plus (Set_ xs)) Eol)) s
  = Some (all_of (in_set xs) s).
Proof.
  apply exec_bol.
  exact (repeat_class_at_end (in_set xs) (List.length s) s 0%nat (le_n _)).
Qed.

Lemma all_of_digit_minus d : all_of is_digit (45 :: d) = false.
Proof. reflexivity. Qed.

(** [^-?\d+$] *)
Lemma exec_integer s :
  RegExp_exec (Cat Bol (Cat (Opt (One (Single 45)))
                            (Cat (Plus (One Digit)) Eol))) s
  = Some (signed_digits s).
Proof.
  apply exec_bol.
  assert (K : forall pos s',
             rmatch (Cat (Plus (One Digit)) Eol) pos s' accept
             = Some (all_of is_digit s')).
  { intros pos s'.
    exact (repeat_class_at_end is_digit (List.length s') s' pos (le_n _)). }
  change (orelse
            (class_step (fun c => c =? 45) 0 s
               (fun pos' s' => rmatch (Cat (Plus (One Digit)) Eol) pos' s' accept))
            (rmatch (Cat (Plus (One Digit)) Eol) 0 s accept)
          = Some (signed_digits s)).
  rewrite K. destruct s as [|c d]; [reflexivity|].
  unfold class_step, signed_digits.
  destruct (Z.eqb_spec c 45) as [->|Hc].
  - rewrite K, all_of_digit_minus. destruct (all_of is_digit d); reflexivity.
  - reflexivity.
Qed.

End Engine.

(** ** Strings *)

Section Strings.

Lemma all_of_spec p s :
  all_of p s = true <-> s <> [] /\ forallb p s = true.
Proof.
  unfold all_of. destruct s as [|c s]; simpl.
  - split; [discriminate|intros [H _]; congruence].
  - split; [intros H; split; [discriminate|exact H]|intros [_ H]; exact H].
Qed.

Lemma is_digit_spec c : is_digit c = true <-> 48 <= c <= 57.
Proof. unfold is_digit, between. lia. Qed.

Lemma forallb_digits s :
  forallb is_digit s = true <-> Forall (fun c => 48 <= c <= 57) s.
Proof.
  rewrite forallb_forall, Forall_forall.
  split; intros H c Hc; apply is_digit_spec, H, Hc.
Qed.

Lemma signed_digits_spec s : signed_digits s = true <-> integer_literal s.
Proof.
  unfold integer_literal. split.
  - destruct s as [|c d]; [discriminate|]. unfold signed_digits.
    destruct (Z.eqb_spec c 45) as [->|Hc]; intros H;
      apply all_of_spec in H; destruct H as [Hne Hall];
      apply forallb_digits in Hall.
    + exists [45], d. auto.
    + exists [], (c :: d). auto.
  - intros (sign & digits & -> & Hsign & Hne & Hall).
    assert (Hd : all_of is_digit digits = true)
      by (apply all_of_spec; split; [exact Hne|apply forallb_digits, Hall]).
    destruct Hsign as [->| ->]; simpl.
    + destruct digits as [|c d]; [congruence|]. unfold signed_digits.
      destruct (Z.eqb_spec c 45) as [->|Hc]; [|exact Hd].
      inversion Hall; lia.
    + exact Hd.
Qed.

Lemma trimStart_keeps c s :
  In c s -> is_space c = false -> In c (trimStart s).
Proof.
  induction s as [|d s IH]; simpl; [tauto|].
  intros [->|Hin] Hc.
  - rewrite Hc. left; reflexivity.
  - destruct (is_space d); [apply IH; assumption|right; exact Hin].
Qed.

Lemma trim_keeps c s : In c s -> is_space c = false -> In c (trim s).
Proof.
  intros Hin Hc. unfold trim, trimEnd.
  apply in_rev. rewrite rev_involutive.
  apply trimStart_keeps; [|exact Hc].
  apply -> in_rev. apply trimStart_keeps; assumption.
Qed.

Lemma trim_nonempty s : trim s <> [] -> s <> [].
Proof. intros H ->. apply H. reflexivity. Qed.

Lemma is_empty_spec s : is_empty s = true <-> s = [].
Proof. destruct s; simpl; split; congruence. Qed.

Lemma in_set_english c :
  in_set [Range 97 122; Range 65 90; Space] c = latin_char c.
Proof.
  unfold in_set, latin_char, is_latin; simpl.
  rewrite orb_false_r, orb_assoc. reflexivity.
Qed.

Lemma in_set_bilingual c :
  in_set [Range 97 122; Range 65 90; Range 3584 3711; Space] c
  = bilingual_char c.
Proof.
  unfold in_set, bilingual_char, is_latin, is_thai; simpl.
  rewrite orb_false_r, !orb_assoc. reflexivity.
Qed.

Lemma forallb_ext_eq (p q : Z -> bool) s :
  (forall c, p c = q c) -> forallb p s = forallb q s.
Proof.
  intros H. induction s as [|c s IH]; simpl; [reflexivity|].
  rewrite H, IH. reflexivity.
Qed.

Lemma test_englishOnly name :
  RegExp_test Validation.englishOnlyRegex name = all_of latin_char name.
Proof.
  unfold RegExp_test, Validation.englishOnlyRegex.
  rewrite exec_set_plus. unfold all_of. f_equal.
  apply forallb_ext_eq, in_set_english.
Qed.

Lemma test_thaiOrEnglish name :
  RegExp_test Api.thaiOrEnglishRegex name = all_of bilingual_char name.
Proof.
  unfold RegExp_test, Api.thaiOrEnglishRegex.
  rewrite exec_set_plus. unfold all_of. f_equal.
  apply forallb_ext_eq, in_set_bilingual.
Qed.

Lemma test_integer s :
  RegExp_test Validation.integerRegex s = signed_digits s.
Proof.
  unfold RegExp_test, Validation.integerRegex. rewrite exec_integer.
  reflexivity.
Qed.

Lemma latin_is_bilingual c : latin_char c = true -> bilingual_char c = true.
Proof.
  unfold latin_char, bilingual_char.
  destruct (is_latin c), (is_thai c), (is_space c); simpl; congruence.
Qed.

End Strings.

(** ** [validateName] *)

Section Names.

Lemma validateName_api_cases name :
  Api.validateName name
  = if is_empty (trim name) then emptyNameMsg
    else if all_of bilingual_char name then [] else disallowedMsg.
Proof.
  unfold Api.validateName. rewrite test_thaiOrEnglish.
  destruct (is_empty (trim name)), (all_of bilingual_char name); reflexivity.
Qed.

Lemma validateName_validation_cases name :
  Validation.validateName name
  = if is_empty (trim name) then emptyNameMsg
    else if all_of latin_char name then [] else englishOnlyMsg.
Proof.
  unfold Validation.validateName. rewrite test_englishOnly.
  destruct (is_empty (trim name)), (all_of latin_char name); reflexivity.
Qed.

Lemma all_of_trimmed p name :
  trim name <> [] -> all_of p name = forallb p name.
Proof.
  intros H. apply trim_nonempty in H.
  unfold all_of. destruct name; [congruence|reflexivity].
Qed.

Lemma is_empty_false s : s <> [] -> is_empty s = false.
Proof. destruct s; [congruence|reflexivity]. Qed.

Lemma names_accepted_api name :
  Api.validateName name = []
  <-> trim name <> [] /\ forallb bilingual_char name = true.
Proof.
  rewrite validateName_api_cases. split.
  - destruct (trim name) as [|c s] eqn:E; simpl; [discriminate|].
    assert (Hne : trim name <> []) by (rewrite E; discriminate).
    rewrite (all_of_trimmed _ _ Hne).
    destruct (forallb bilingual_char name); [split; [discriminate|reflexivity]|discriminate].
  - intros [Hne Hall].
    rewrite (is_empty_false _ Hne), (all_of_trimmed _ _ Hne), Hall.
    reflexivity.
Qed.

Lemma names_accepted_validation name :
  Validation.validateName name = []
  <-> trim name <> [] /\ forallb latin_char name = true.
Proof.
  rewrite validateName_validation_cases. split.
  - destruct (trim name) as [|c s] eqn:E; simpl; [discriminate|].
    assert (Hne : trim name <> []) by (rewrite E; discriminate).
    rewrite (all_of_trimmed _ _ Hne).
    destruct (forallb latin_char name); [split; [discriminate|reflexivity]|discriminate].
  - intros [Hne Hall].
    rewrite (is_empty_false _ Hne), (all_of_trimmed _ _ Hne), Hall.
    reflexivity.
Qed.

Lemma forallb_latin_bilingual name :
  forallb latin_char name = true -> forallb bilingual_char name = true.
Proof.
  rewrite !forallb_forall. intros H c Hc. apply latin_is_bilingual, H, Hc.
Qed.

(** C1. Under the bilingual policy (the copy in [api.ts]) [validateName]
    returns the empty string exactly when the trimmed name is non-empty
    and every code unit of the untrimmed name is a Latin letter, a Thai
    character (U+0E00 .. U+0E7F) or whitespace; a name with a non-empty
    trim that holds any other code unit gets the disallowed-characters
    message, as "John123" and "Test!" do, and "Ken" followed by its Thai
    spelling is accepted. *)
Theorem validateName_bilingual_policy :
  forall name,
    (Api.validateName name = []
     <-> trim name <> [] /\ forallb bilingual_char name = true)
    /\ (trim name <> [] -> forallb bilingual_char name = false ->
        Api.validateName name = disallowedMsg)
    /\ Api.validateName ken = []
    /\ Api.validateName (lit "John123") = disallowedMsg
    /\ Api.validateName (lit "Test!") = disallowedMsg.
Proof.
  intros name. split; [apply names_accepted_api|].
  split; [|repeat split; reflexivity].
  intros Hne Hbad. rewrite validateName_api_cases.
  rewrite (is_empty_false _ Hne), (all_of_trimmed _ _ Hne), Hbad.
  reflexivity.
Qed.

Lemma validateName_bilingual_policy_witness :
  trim (lit "John@Doe") <> []
  /\ forallb bilingual_char (lit "John@Doe") = false
  /\ Api.validateName (lit "John@Doe") = disallowedMsg.
Proof.
  assert (Hne : trim (lit "John@Doe") <> []) by (vm_compute; discriminate).
  assert (Hbad : forallb bilingual_char (lit "John@Doe") = false)
    by reflexivity.
  destruct (validateName_bilingual_policy (lit "John@Doe")) as (_ & H & _).
  exact (conj Hne (conj Hbad (H Hne Hbad))).
Defined.

(** C7. A name whose trim is empty gets the fixed empty-name message,
    in both copies; that message differs from the message for disallowed
    characters; and the empty string comes back only for a valid name:
    a non-empty trim and nothing but permitted code units. *)
Theorem validateName_empty_message :
  forall name,
    (trim name = [] ->
     Api.validateName name = emptyNameMsg
     /\ Validation.validateName name = emptyNameMsg)
    /\ emptyNameMsg <> disallowedMsg
    /\ emptyNameMsg <> englishOnlyMsg
    /\ emptyNameMsg <> []
    /\ (Api.validateName name = [] ->
        trim name <> [] /\ forallb bilingual_char name = true)
    /\ (Validation.validateName name = [] ->
        trim name <> [] /\ forallb bilingual_char name = true)
    /\ Api.validateName (lit "") = emptyNameMsg
    /\ Api.validateName (lit "   ") = emptyNameMsg
    /\ Validation.validateName (lit "") = emptyNameMsg
    /\ Validation.validateName (lit "   ") = emptyNameMsg.
Proof.
  intros name. split.
  { intros H. rewrite validateName_api_cases, validateName_validation_cases.
    rewrite H. split; reflexivity. }
  split; [intros H; vm_compute in H; discriminate H|].
  split; [intros H; vm_compute in H; discriminate H|].
  split; [intros H; vm_compute in H; discriminate H|].
  split; [apply names_accepted_api|].
  split; [|repeat split; reflexivity].
  intros H. apply names_accepted_validation in H. destruct H as [Hne Hall].
  split; [exact Hne|apply forallb_latin_bilingual, Hall].
Qed.

Lemma validateName_empty_message_witness :
  trim (lit "   ") = []
  /\ Api.validateName (lit "   ") = emptyNameMsg
  /\ Validation.validateName (lit "   ") = emptyNameMsg.
Proof.
  assert (He : trim (lit "   ") = []) by reflexivity.
  destruct (validateName_empty_message (lit "   ")) as (H & _).
  exact (conj He (H He)).
Defined.

(** C8. The bilingual copy accepts every name the Latin-only copy
    accepts, and the two reject the same names as empty: each returns
    the empty-name message exactly on the names whose trim is empty. *)
Theorem validateName_bilingual_more_permissive :
  forall name,
    (Validation.validateName name = [] -> Api.validateName name = [])
    /\ (Validation.validateName name = emptyNameMsg <-> trim name = [])
    /\ (Api.validateName name = emptyNameMsg <-> trim name = []).
Proof.
  intros name. split; [|split].
  - intros H. apply names_accepted_validation in H. destruct H as [Hne Hall].
    apply names_accepted_api. split; [exact Hne|].
    apply forallb_latin_bilingual, Hall.
  - rewrite validateName_validation_cases.
    destruct (trim name) as [|c s]; simpl.
    + split; reflexivity.
    + destruct (all_of latin_char name); split; intros H;
        try discriminate H; vm_compute in H; discriminate H.
  - rewrite validateName_api_cases.
    destruct (trim name) as [|c s]; simpl.
    + split; reflexivity.
    + destruct (all_of bilingual_char name); split; intros H;
        try discriminate H; vm_compute in H; discriminate H.
Qed.

Lemma validateName_bilingual_more_permissive_witness :
  Validation.validateName (lit "John Doe") = []
  /\ Api.validateName (lit "John Doe") = [].
Proof.
  assert (Hv : Validation.validateName (lit "John Doe") = []) by reflexivity.
  destruct (validateName_bilingual_more_permissive (lit "John Doe"))
    as (H & _).
  exact (conj Hv (H Hv)).
Defined.

End Names.

(** ** [isInteger] and [validateNumericField] *)

Section NumericFields.

Lemma isInteger_signed_digits t :
  Validation.isInteger t = signed_digits (trim t).
Proof. apply test_integer. Qed.

Lemma isInteger_literal t :
  Validation.isInteger t = true <-> integer_literal (trim t).
Proof. rewrite isInteger_signed_digits. apply signed_digits_spec. Qed.

Lemma literal_units s c :
  integer_literal s -> In c s -> c = 45 \/ 48 <= c <= 57.
Proof.
  intros (sign & digits & -> & Hsign & _ & Hall) Hin.
  apply in_app_or in Hin. destruct Hin as [Hin|Hin].
  - destruct Hsign as [->| ->]; simpl in Hin; [tauto|].
    destruct Hin as [<-|[]]. left; reflexivity.
  - right. rewrite Forall_forall in Hall. apply Hall, Hin.
Qed.

(** C2. [isInteger t] is true exactly when the trim of [t] is an
    optional minus sign followed by one or more decimal digits, in both
    copies.  So it is false for the empty string, and for every text
    holding a code unit that is neither whitespace, a digit nor a minus
    sign, such as the decimal "1.5" and the word "abc". *)
Theorem isInteger_iff_integer_literal :
  forall t,
    (Validation.isInteger t = true <-> integer_literal (trim t))
    /\ (Api.isInteger t = true <-> integer_literal (trim t))
    /\ (forall c, In c t -> is_space c = false -> is_digit c = false ->
                  c <> 45 -> Validation.isInteger t = false)
    /\ Validation.isInteger (lit "") = false
    /\ Validation.isInteger (lit "1.5") = false
    /\ Validation.isInteger (lit "abc") = false
    /\ Validation.isInteger (lit " 50 ") = true
    /\ Validation.isInteger (lit "-7") = true.
Proof.
  intros t. split; [apply isInteger_literal|].
  split; [apply isInteger_literal|].
  split; [|repeat split; reflexivity].
  intros c Hin Hsp Hdg Hm.
  destruct (Validation.isInteger t) eqn:E; [exfalso|reflexivity].
  apply isInteger_literal in E.
  destruct (literal_units _ c E (trim_keeps _ _ Hin Hsp)) as [H|H].
  - exact (Hm H).
  - apply is_digit_spec in H. congruence.
Qed.

Lemma isInteger_iff_integer_literal_witness :
  In 46 (lit "10.99") /\ Validation.isInteger (lit "10.99") = false.
Proof.
  assert (Hin : In 46 (lit "10.99")) by (simpl; tauto).
  destruct (isInteger_iff_integer_literal (lit "10.99")) as (_ & _ & H & _).
  refine (conj Hin (H 46 Hin _ _ _)); [reflexivity|reflexivity|discriminate].
Defined.

Lemma integerFormatMsg_split :
  integerFormatMsg = emptyFieldMsg (lit "with integer or whole number").
Proof. reflexivity. Qed.

Lemma emptyFieldMsg_nonempty label : emptyFieldMsg label <> [].
Proof. unfold emptyFieldMsg. simpl. discriminate. Qed.

Lemma emptyFieldMsg_inj l1 l2 : emptyFieldMsg l1 = emptyFieldMsg l2 -> l1 = l2.
Proof. unfold emptyFieldMsg. apply app_inv_head. Qed.

Lemma validateNumericField_cases value label :
  Validation.validateNumericField value label
  = if is_empty (trim value) then emptyFieldMsg label
    else if Validation.isInteger value then [] else integerFormatMsg.
Proof.
  unfold Validation.validateNumericField.
  destruct (is_empty (trim value)), (Validation.isInteger value); reflexivity.
Qed.

(** C5, as stated, fails: with the label "with integer or whole
    number" the empty-field message is the integer-format message, so
    the value "abc", whose trim is not empty, gets the empty-field
    message of that label. *)
Lemma validateNumericField_messages_collide :
  ~ (forall value label,
        Validation.validateNumericField value label = emptyFieldMsg label
        <-> trim value = []).
Proof.
  intros H.
  destruct (H (lit "abc") (lit "with integer or whole number")) as [H1 _].
  assert (E : trim (lit "abc") = []) by (apply H1; reflexivity).
  vm_compute in E. discriminate E.
Qed.

(** C5, amended. An empty trim gives the empty-field message; otherwise
    the integer-format message comes back exactly when [isInteger] is
    false, and the empty string otherwise.  The empty string is returned
    exactly for a non-empty trim that [isInteger] accepts, and the
    empty-field message exactly for an empty trim as long as the label
    is not "with integer or whole number". *)
Theorem validateNumericField_outcomes :
  forall value label,
    (trim value = [] ->
     Validation.validateNumericField value label = emptyFieldMsg label)
    /\ (trim value <> [] ->
        (Validation.validateNumericField value label = integerFormatMsg
         <-> Validation.isInteger value = false))
    /\ (Validation.validateNumericField value label = []
        <-> trim value <> [] /\ Validation.isInteger value = true)
    /\ (label <> lit "with integer or whole number" ->
        (Validation.validateNumericField value label = emptyFieldMsg label
         <-> trim value = []))
    /\ Validation.validateNumericField (lit "") (lit "Locks")
       = lit "Please enter Locks"
    /\ Validation.validateNumericField (lit "1.5") (lit "Locks")
       = integerFormatMsg
    /\ Validation.validateNumericField (lit "10") (lit "Locks") = [].
Proof.
  intros value label. rewrite validateNumericField_cases.
  pose proof (emptyFieldMsg_nonempty label) as Hne.
  assert (Hfmt : integerFormatMsg <> [])
    by (rewrite integerFormatMsg_split; apply emptyFieldMsg_nonempty).
  split; [intros ->; reflexivity|].
  split.
  { intros Ht. rewrite (is_empty_false _ Ht).
    destruct (Validation.isInteger value); split; congruence. }
  split.
  { destruct (trim value) as [|c s]; simpl.
    - split; [congruence|intros [H _]; congruence].
    - destruct (Validation.isInteger value); split;
        try congruence; try (intros [_ H]; congruence).
      intros _. split; [discriminate|reflexivity]. }
  split; [|repeat split; reflexivity].
  intros Hlabel. destruct (trim value) as [|c s]; simpl.
  - split; reflexivity.
  - destruct (Validation.isInteger value); split; try congruence.
    rewrite integerFormatMsg_split. intros H.
    apply emptyFieldMsg_inj in H. congruence.
Qed.

Lemma validateNumericField_outcomes_witness :
  trim (lit "   ") = []
  /\ Validation.validateNumericField (lit "   ") (lit "Locks")
     = emptyFieldMsg (lit "Locks").
Proof.
  assert (He : trim (lit "   ") = []) by reflexivity.
  destruct (validateNumericField_outcomes (lit "   ") (lit "Locks"))
    as (H & _).
  exact (conj He (H He)).
Defined.

(** C6, as stated, fails: the integer-format message is one constant
    string; for the value "1.5" and the label "Locks" it comes back
    and does not contain "Locks". *)
Lemma integer_format_message_ignores_label :
  ~ (forall value label,
        Validation.validateNumericField value label <> [] ->
        incorporates (Validation.validateNumericField value label) label).
Proof.
  intros H.
  destruct (H (lit "1.5") (lit "Locks")) as (pre & post & E).
  - vm_compute. discriminate.
  - assert (Hin : In 76 (Validation.validateNumericField (lit "1.5")
                           (lit "Locks"))).
    { rewrite E. apply in_or_app. right. apply in_or_app. left.
      left. reflexivity. }
    vm_compute in Hin.
    repeat (destruct Hin as [Hin|Hin]; [discriminate Hin|]).
    exact Hin.
Qed.

(** C6, amended. A non-empty result of [validateNumericField], in
    either copy, is one of two messages: for an empty trim the template
    "Please enter " followed by the label, which contains the label;
    otherwise the constant "Please enter with integer or whole number",
    the same whatever the label. *)
Theorem validateNumericField_two_messages :
  forall value label,
    Validation.validateNumericField value label <> [] ->
    Api.validateNumericField value label
    = Validation.validateNumericField value label
    /\ ((trim value = []
         /\ Validation.validateNumericField value label
            = lit "Please enter " ++ label
         /\ incorporates (Validation.validateNumericField value label) label)
        \/ (trim value <> []
            /\ forall label',
                 Validation.validateNumericField value label'
                 = lit "Please enter with integer or whole number")).
Proof.
  intros value label H. split; [reflexivity|].
  revert H. rewrite validateNumericField_cases.
  destruct (trim value) as [|c s] eqn:E; simpl; intros H.
  - left. split; [reflexivity|]. split; [reflexivity|].
    exists (lit "Please enter "), []. rewrite app_nil_r. reflexivity.
  - right. split; [discriminate|]. intros label'.
    rewrite validateNumericField_cases, E. simpl.
    destruct (Validation.isInteger value); [congruence|reflexivity].
Qed.

Lemma validateNumericField_two_messages_witness :
  Validation.validateNumericField (lit "12abc") (lit "Barrels") <> []
  /\ forall label',
       Validation.validateNumericField (lit "12abc") label'
       = lit "Please enter with integer or whole number".
Proof.
  assert (Hne : Validation.validateNumericField (lit "12abc") (lit "Barrels")
                <> []) by (vm_compute; discriminate).
  destruct (validateNumericField_two_messages (lit "12abc") (lit "Barrels") Hne)
    as (_ & [(He & _)|(_ & H)]).
  - vm_compute in He. discriminate He.
  - exact (conj Hne H).
Defined.

End NumericFields.

(** ** [validateInputRanges] *)

Section Ranges.

Lemma validateInputRanges_reports locks stocks barrels :
  Validation.validateInputRanges locks stocks barrels
  = report (isNaN locks || lt locks (of_int 1) || gt locks (of_int 70))
           locksMsg
    ++ report (isNaN stocks || lt stocks (of_int 1) || gt stocks (of_int 80))
              stocksMsg
    ++ report (isNaN barrels || lt barrels (of_int 1)
               || gt barrels (of_int 90))
              barrelsMsg.
Proof.
  unfold Validation.validateInputRanges, report, push.
  destruct (isNaN locks || lt locks (of_int 1) || gt locks (of_int 70)),
    (isNaN stocks || lt stocks (of_int 1) || gt stocks (of_int 80)),
    (isNaN barrels || lt barrels (of_int 1) || gt barrels (of_int 90));
    reflexivity.
Qed.

Lemma messages_differ :
  locksMsg <> stocksMsg /\ locksMsg <> barrelsMsg /\ stocksMsg <> barrelsMsg.
Proof.
  repeat split; intros H; vm_compute in H; discriminate H.
Qed.

Lemma reports_spec (a b c : bool) :
  let r := report a locksMsg ++ report b stocksMsg ++ report c barrelsMsg in
  (In locksMsg r <-> a = true)
  /\ (In stocksMsg r <-> b = true)
  /\ (In barrelsMsg r <-> c = true)
  /\ NoDup r.
Proof.
  destruct messages_differ as (Hls & Hlb & Hsb).
  destruct a, b, c; simpl; repeat split;
    try (intros H; repeat (destruct H as [H|H]; try congruence);
         try contradiction; reflexivity);
    try (intros _; tauto);
    try discriminate;
    repeat constructor; simpl; intuition congruence.
Qed.

Lemma int_check lo hi z :
  isNaN (of_int z) || lt (of_int z) (of_int lo) || gt (of_int z) (of_int hi)
  = negb ((lo <=? z) && (z <=? hi)).
Proof.
  unfold of_int, gt, lt, isNaN, Qle_bool; simpl.
  rewrite !Z.mul_1_r, negb_andb. reflexivity.
Qed.

Lemma number_check lo hi x :
  isNaN x || lt x (of_int lo) || gt x (of_int hi) = true
  <-> ~ in_range lo hi x.
Proof.
  destruct x as [| | |q]; simpl; try tauto.
  unfold gt, lt, of_int.
  destruct (Qle_bool (inject_Z lo) q) eqn:E1;
    destruct (Qle_bool q (inject_Z hi)) eqn:E2; simpl;
    rewrite <- !Qle_bool_iff, E1, E2; intuition congruence.
Qed.

(** C3. On integer arguments [validateInputRanges] returns the locks
    message exactly when locks is outside 1..70, the stocks message
    exactly when stocks is outside 1..80 and the barrels message exactly
    when barrels is outside 1..90: independent checks, no message twice,
    in the order locks, stocks, barrels.  The bounds themselves are
    valid, and (0,0,0) gives the three messages. *)
Theorem validateInputRanges_integers :
  forall locks stocks barrels : Z,
    let r := Validation.validateInputRanges
               (of_int locks) (of_int stocks) (of_int barrels) in
    r = (if (1 <=? locks) && (locks <=? 70) then [] else [locksMsg])
        ++ (if (1 <=? stocks) && (stocks <=? 80) then [] else [stocksMsg])
        ++ (if (1 <=? barrels) && (barrels <=? 90) then [] else [barrelsMsg])
    /\ (In locksMsg r <-> ~ (1 <= locks <= 70))
    /\ (In stocksMsg r <-> ~ (1 <= stocks <= 80))
    /\ (In barrelsMsg r <-> ~ (1 <= barrels <= 90))
    /\ NoDup r
    /\ Validation.validateInputRanges (of_int 1) (of_int 1) (of_int 1) = []
    /\ Validation.validateInputRanges (of_int 70) (of_int 80) (of_int 90) = []
    /\ Validation.validateInputRanges (of_int 0) (of_int 0) (of_int 0)
       = [locksMsg; stocksMsg; barrelsMsg].
Proof.
  intros locks stocks barrels r. subst r.
  rewrite validateInputRanges_reports, !int_check.
  pose proof (reports_spec (negb ((1 <=? locks) && (locks <=? 70)))
                           (negb ((1 <=? stocks) && (stocks <=? 80)))
                           (negb ((1 <=? barrels) && (barrels <=? 90))))
    as (Hl & Hs & Hb & Hnd).
  split.
  { unfold report.
    destruct ((1 <=? locks) && (locks <=? 70)),
      ((1 <=? stocks) && (stocks <=? 80)),
      ((1 <=? barrels) && (barrels <=? 90)); reflexivity. }
  split; [rewrite Hl, negb_true_iff, andb_false_iff; lia|].
  split; [rewrite Hs, negb_true_iff, andb_false_iff; lia|].
  split; [rewrite Hb, negb_true_iff, andb_false_iff; lia|].
  split; [exact Hnd|].
  repeat split; reflexivity.
Qed.

(** C4. A [NaN] in any position counts as out of range for that field
    and brings that field's message; the verdict on each field depends
    on that field alone, whatever the other two arguments are, [NaN]
    included.  So (NaN, 50, 50) gives the locks message, and a [NaN] for
    locks leaves the rest of the result as it is for a valid locks. *)
Theorem validateInputRanges_NaN :
  forall locks stocks barrels : number,
    let r := Validation.validateInputRanges locks stocks barrels in
    (In locksMsg r <-> ~ in_range 1 70 locks)
    /\ (In stocksMsg r <-> ~ in_range 1 80 stocks)
    /\ (In barrelsMsg r <-> ~ in_range 1 90 barrels)
    /\ In locksMsg (Validation.validateInputRanges NaN stocks barrels)
    /\ In stocksMsg (Validation.validateInputRanges locks NaN barrels)
    /\ In barrelsMsg (Validation.validateInputRanges locks stocks NaN)
    /\ Validation.validateInputRanges NaN stocks barrels
       = locksMsg
           :: Validation.validateInputRanges (of_int 1) stocks barrels
    /\ Validation.validateInputRanges NaN (of_int 50) (of_int 50)
       = [locksMsg].
Proof.
  intros locks stocks barrels r. subst r.
  assert (Hall : forall l s b,
             (In locksMsg (Validation.validateInputRanges l s b)
              <-> ~ in_range 1 70 l)
             /\ (In stocksMsg (Validation.validateInputRanges l s b)
                 <-> ~ in_range 1 80 s)
             /\ (In barrelsMsg (Validation.validateInputRanges l s b)
                 <-> ~ in_range 1 90 b)).
  { intros l s b. rewrite validateInputRanges_reports.
    pose proof (reports_spec
                  (isNaN l || lt l (of_int 1) || gt l (of_int 70))
                  (isNaN s || lt s (of_int 1) || gt s (of_int 80))
                  (isNaN b || lt b (of_int 1) || gt b (of_int 90)))
      as (Hl & Hs & Hb & _).
    rewrite <- !number_check. auto. }
  destruct (Hall locks stocks barrels) as (Hl & Hs & Hb).
  split; [exact Hl|]. split; [exact Hs|]. split; [exact Hb|].
  split; [apply Hall; simpl; tauto|].
  split; [apply Hall; simpl; tauto|].
  split; [apply Hall; simpl; tauto|].
  split; [|reflexivity].
  rewrite !validateInputRanges_reports. reflexivity.
Qed.

End Ranges.

(** ** The two copies *)

Section Copies.

(** C10. The two copies of [isInteger], [validateNumericField] and
    [validateInputRanges] return the same result on every input; the
    copies of [validateName] do not, as the name "Ken" with its Thai
    spelling shows. *)
Theorem copies_agree :
  (forall value, Validation.isInteger value = Api.isInteger value)
  /\ (forall value fieldName,
        Validation.validateNumericField value fieldName
        = Api.validateNumericField value fieldName)
  /\ (forall locks stocks barrels,
        Validation.validateInputRanges locks stocks barrels
        = Api.validateInputRanges locks stocks barrels)
  /\ Validation.validateName ken <> Api.validateName ken.
Proof.
  split; [intros; reflexivity|].
  split; [intros; reflexivity|].
  split; [intros; reflexivity|].
  vm_compute. discriminate.
Qed.

End Copies.

(** ** Surrounding whitespace *)

Section Trimming.

Lemma trimStart_spaces ws x :
  forallb is_space ws = true -> trimStart (ws ++ x) = trimStart x.
Proof.
  induction ws as [|c ws IH]; simpl; [reflexivity|].
  intros H. apply andb_true_iff in H. destruct H as [Hc Hws].
  rewrite Hc. apply IH, Hws.
Qed.

Lemma trimStart_all_space t : forallb is_space t = true -> trimStart t = [].
Proof.
  intros H. rewrite <- (app_nil_r t). rewrite trimStart_spaces by exact H.
  reflexivity.
Qed.

Lemma trimStart_app_keep t y :
  forallb is_space t = false -> trimStart (t ++ y) = trimStart t ++ y.
Proof.
  induction t as [|c t IH]; simpl; [discriminate|].
  destruct (is_space c); simpl; [exact IH|reflexivity].
Qed.

Lemma trimStart_split s :
  exists ws, forallb is_space ws = true /\ s = ws ++ trimStart s.
Proof.
  induction s as [|c s (ws & Hws & E)]; simpl.
  - exists []. split; reflexivity.
  - destruct (is_space c) eqn:Hc.
    + exists (c :: ws). simpl. rewrite Hc, Hws. split; [reflexivity|].
      f_equal. exact E.
    + exists []. split; reflexivity.
Qed.

Lemma forallb_rev (p : Z -> bool) s : forallb p (rev s) = forallb p s.
Proof.
  induction s as [|c s IH]; simpl; [reflexivity|].
  rewrite forallb_app, IH. simpl. rewrite andb_true_r. apply andb_comm.
Qed.

Lemma trimEnd_spaces x ws :
  forallb is_space ws = true -> trimEnd (x ++ ws) = trimEnd x.
Proof.
  intros H. unfold trimEnd. rewrite rev_app_distr.
  rewrite trimStart_spaces by (rewrite forallb_rev; exact H). reflexivity.
Qed.

Lemma trimEnd_split s :
  exists ws, forallb is_space ws = true /\ s = trimEnd s ++ ws.
Proof.
  destruct (trimStart_split (rev s)) as (ws & Hws & E).
  exists (rev ws). split; [rewrite forallb_rev; exact Hws|].
  unfold trimEnd. rewrite <- rev_app_distr, <- E. symmetry. apply rev_involutive.
Qed.

Lemma trimStart_cons c u s : trimStart s = c :: u -> is_space c = false.
Proof.
  induction s as [|d s IH]; simpl; [discriminate|].
  destruct (is_space d) eqn:Hd; [exact IH|].
  intros H. injection H as <- _. exact Hd.
Qed.

(** What [trimStart] leaves is the trimmed string followed by the
    trailing whitespace. *)
Lemma trimStart_trim s :
  exists ws, forallb is_space ws = true /\ trimStart s = trim s ++ ws.
Proof. apply trimEnd_split. Qed.

Lemma trim_empty_start s : trim s = [] -> trimStart s = [].
Proof.
  intros H. destruct (trimStart_trim s) as (ws & Hws & E).
  rewrite H in E. simpl in E.
  destruct (trimStart s) as [|c u] eqn:Es; [reflexivity|].
  pose proof (trimStart_cons _ _ _ Es) as Hc.
  rewrite <- E in Hws. simpl in Hws. rewrite Hc in Hws. discriminate.
Qed.

Lemma trim_padding ws t ws' :
  forallb is_space ws = true -> forallb is_space ws' = true ->
  trim (ws ++ t ++ ws') = trim t.
Proof.
  intros Hws Hws'. unfold trim. rewrite trimStart_spaces by exact Hws.
  destruct (forallb is_space t) eqn:Ht.
  - rewrite (trimStart_all_space t Ht).
    rewrite trimStart_all_space; [reflexivity|].
    rewrite forallb_app, Ht, Hws'. reflexivity.
  - rewrite trimStart_app_keep by exact Ht. apply trimEnd_spaces, Hws'.
Qed.

Lemma trim_decompose s :
  exists ws ws',
    forallb is_space ws = true /\ forallb is_space ws' = true
    /\ s = ws ++ trim s ++ ws'.
Proof.
  destruct (trimStart_split s) as (ws & Hws & E).
  destruct (trimStart_trim s) as (ws' & Hws' & E').
  exists ws, ws'. rewrite <- E'. auto.
Qed.

Lemma trim_idempotent s : trim (trim s) = trim s.
Proof.
  destruct (trim_decompose s) as (ws & ws' & Hws & Hws' & E).
  rewrite E at 2. symmetry. apply trim_padding; assumption.
Qed.

Lemma space_is_latin c : is_space c = true -> latin_char c = true.
Proof. unfold latin_char. intros ->. apply orb_true_r. Qed.

Lemma space_is_bilingual c : is_space c = true -> bilingual_char c = true.
Proof. unfold bilingual_char. intros ->. apply orb_true_r. Qed.

Lemma forallb_impl (p q : Z -> bool) s :
  (forall c, p c = true -> q c = true) ->
  forallb p s = true -> forallb q s = true.
Proof.
  intros H. rewrite !forallb_forall. auto.
Qed.

Lemma all_of_padding p ws t ws' :
  (forall c, is_space c = true -> p c = true) ->
  forallb is_space ws = true -> forallb is_space ws' = true ->
  trim t <> [] ->
  all_of p (ws ++ t ++ ws') = all_of p t.
Proof.
  intros Hp Hws Hws' Ht.
  assert (Hne : trim (ws ++ t ++ ws') <> [])
    by (rewrite trim_padding; assumption).
  rewrite (all_of_trimmed _ _ Hne), (all_of_trimmed _ _ Ht).
  rewrite !forallb_app.
  rewrite (forallb_impl _ _ _ Hp Hws), (forallb_impl _ _ _ Hp Hws').
  rewrite andb_true_r. reflexivity.
Qed.

(** X1. Whitespace around a value changes no verdict: each validator
    returns on the padded text what it returns on the text itself, and
    [isInteger] and [validateNumericField] return the same on the
    trimmed text. *)
Theorem validators_ignore_padding :
  forall ws t ws' label,
    forallb is_space ws = true -> forallb is_space ws' = true ->
    Validation.isInteger (ws ++ t ++ ws') = Validation.isInteger t
    /\ Validation.isInteger (trim t) = Validation.isInteger t
    /\ Validation.validateNumericField (ws ++ t ++ ws') label
       = Validation.validateNumericField t label
    /\ Validation.validateNumericField (trim t) label
       = Validation.validateNumericField t label
    /\ Validation.validateName (ws ++ t ++ ws') = Validation.validateName t
    /\ Api.validateName (ws ++ t ++ ws') = Api.validateName t.
Proof.
  intros ws t ws' label Hws Hws'.
  assert (Hi : Validation.isInteger (ws ++ t ++ ws') = Validation.isInteger t)
    by (unfold Validation.isInteger; rewrite trim_padding; auto).
  assert (Ht : Validation.isInteger (trim t) = Validation.isInteger t)
    by (unfold Validation.isInteger; rewrite trim_idempotent; reflexivity).
  split; [exact Hi|]. split; [exact Ht|].
  split; [rewrite !validateNumericField_cases, Hi, trim_padding; auto|].
  split; [rewrite !validateNumericField_cases, Ht, trim_idempotent; auto|].
  rewrite !validateName_validation_cases, !validateName_api_cases.
  rewrite trim_padding by assumption.
  destruct (trim t) as [|c u] eqn:E; simpl; [split; reflexivity|].
  assert (Hne : trim t <> []) by (rewrite E; discriminate).
  rewrite !all_of_padding;
    auto using space_is_latin, space_is_bilingual.
Qed.

Lemma validators_ignore_padding_witness :
  forallb is_space (lit "  ") = true
  /\ forallb is_space (lit " ") = true
  /\ Validation.isInteger (lit "  " ++ lit "50" ++ lit " ")
     = Validation.isInteger (lit "50").
Proof.
  assert (H1 : forallb is_space (lit "  ") = true) by reflexivity.
  assert (H2 : forallb is_space (lit " ") = true) by reflexivity.
  destruct (validators_ignore_padding
              (lit "  ") (lit "50") (lit " ") (lit "Locks") H1 H2)
    as (H & _).
  exact (conj H1 (conj H2 H)).
Defined.

End Trimming.

(** ** The validator the page imports *)

Section LatinOnly.

Lemma thai_not_latin c : is_thai c = true -> latin_char c = false.
Proof.
  unfold is_thai, latin_char, is_latin, is_space, between.
  intros H. apply andb_true_iff in H. destruct H as [H1 H2].
  apply Z.leb_le in H1. apply Z.leb_le in H2.
  repeat match goal with
         | |- context [(?a <=? ?b)] =>
             destruct (Z.leb_spec a b); try lia
         | |- context [(?a =? ?b)] =>
             destruct (Z.eqb_spec a b); try lia
         end; reflexivity.
Qed.

(** X2. The [validateName] of [validation.ts], the one [page.tsx]
    imports, accepts exactly the names with a non-empty trim made of
    Latin letters and whitespace, and answers every other name with a
    non-empty trim by its English-only message.  A name holding a Thai
    character is never accepted by it, even one the copy in [api.ts]
    accepts. *)
Theorem validateName_latin_only :
  forall name,
    (Validation.validateName name = []
     <-> trim name <> [] /\ forallb latin_char name = true)
    /\ (Validation.validateName name = englishOnlyMsg
        <-> trim name <> [] /\ forallb latin_char name = false)
    /\ (forall c, In c name -> is_thai c = true ->
                  Validation.validateName name = emptyNameMsg
                  \/ Validation.validateName name = englishOnlyMsg)
    /\ (forall c, In c name -> is_thai c = true ->
                  Api.validateName name = [] ->
                  Validation.validateName name = englishOnlyMsg).
Proof.
  intros name.
  assert (Hmsg : forall name' c, In c name' -> is_thai c = true ->
                   trim name' <> [] ->
                   Validation.validateName name' = englishOnlyMsg).
  { intros name' c Hin Hc Hne. rewrite validateName_validation_cases.
    rewrite (is_empty_false _ Hne), (all_of_trimmed _ _ Hne).
    replace (forallb latin_char name') with false; [reflexivity|].
    symmetry. apply not_true_is_false. intros Hall.
    rewrite forallb_forall in Hall. specialize (Hall c Hin).
    rewrite (thai_not_latin c Hc) in Hall. discriminate. }
  split; [apply names_accepted_validation|].
  split.
  { rewrite validateName_validation_cases.
    destruct (trim name) as [|c u] eqn:E; simpl.
    - split; [intros H; vm_compute in H; discriminate H|].
      intros [H _]; congruence.
    - assert (Hne : trim name <> []) by (rewrite E; discriminate).
      rewrite (all_of_trimmed _ _ Hne).
      destruct (forallb latin_char name); split.
      + intros H; vm_compute in H; discriminate H.
      + intros [_ H]; discriminate H.
      + intros _. split; [discriminate|reflexivity].
      + reflexivity. }
  split.
  { intros c Hin Hc. destruct (trim name) as [|d u] eqn:E.
    - left. rewrite validateName_validation_cases, E. reflexivity.
    - right. apply (Hmsg name c Hin Hc). rewrite E. discriminate. }
  intros c Hin Hc Hapi. apply names_accepted_api in Hapi.
  apply (Hmsg name c Hin Hc), Hapi.
Qed.

Lemma validateName_latin_only_witness :
  In 3648 ken /\ is_thai 3648 = true /\ Api.validateName ken = []
  /\ Validation.validateName ken = englishOnlyMsg.
Proof.
  assert (Hin : In 3648 ken) by (simpl; tauto).
  assert (Hc : is_thai 3648 = true) by reflexivity.
  assert (Ha : Api.validateName ken = []) by reflexivity.
  destruct (validateName_latin_only ken) as (_ & _ & _ & H).
  exact (conj Hin (conj Hc (conj Ha (H 3648 Hin Hc Ha)))).
Defined.

End LatinOnly.

(** ** [parseInt] on the fields of the form *)

Section ParseInt.

Lemma digit_value_decimal c :
  digit_value 10 c = if is_digit c then Some (c - 48) else None.
Proof.
  unfold digit_value, is_digit, between.
  repeat match goal with
         | |- context [(?a <=? ?b)] =>
             destruct (Z.leb_spec a b); simpl; try lia
         | |- context [(?a <? ?b)] =>
             destruct (Z.ltb_spec a b); simpl; try lia
         end; reflexivity.
Qed.

Lemma space_not_digit c : is_space c = true -> is_digit c = false.
Proof.
  unfold is_space, is_digit, between. intros H.
  destruct (Z.leb_spec 48 c); [|reflexivity].
  destruct (Z.leb_spec c 57); [|reflexivity].
  exfalso. revert H.
  repeat match goal with
         | |- context [(?a <=? ?b)] =>
             destruct (Z.leb_spec a b); simpl; try lia
         | |- context [(?a =? ?b)] =>
             destruct (Z.eqb_spec a b); simpl; try lia
         end; discriminate.
Qed.

Lemma take_digits_run ds ws :
  forallb is_digit ds = true -> forallb is_space ws = true ->
  take_digits 10 (ds ++ ws) = map (fun c => c - 48) ds.
Proof.
  intros Hds Hws. induction ds as [|c ds IH]; simpl.
  - destruct ws as [|w ws]; [reflexivity|]. simpl in *.
    apply andb_true_iff in Hws. destruct Hws as [Hw _].
    rewrite digit_value_decimal, (space_not_digit w Hw). reflexivity.
  - simpl in Hds. apply andb_true_iff in Hds. destruct Hds as [Hc Hds].
    rewrite digit_value_decimal, Hc. f_equal. apply IH, Hds.
Qed.

Lemma digits_value_map ds :
  digits_value 10 (map (fun c => c - 48) ds) = decimal ds.
Proof.
  unfold digits_value, decimal. generalize 0.
  induction ds as [|c ds IH]; intros acc; simpl; [reflexivity|apply IH].
Qed.

Lemma strip_prefix_decimal ds ws :
  forallb is_digit ds = true -> forallb is_space ws = true ->
  strip_prefix (ds ++ ws) = (10, ds ++ ws).
Proof.
  intros Hds Hws. unfold strip_prefix.
  destruct (ds ++ ws) as [|c [|x s']] eqn:E; try reflexivity.
  assert (Hx : is_digit x = true \/ is_space x = true).
  { assert (Hall : forallb (fun c => is_digit c || is_space c) (ds ++ ws)
                   = true).
    { rewrite forallb_app. apply andb_true_iff. split.
      - revert Hds. apply forallb_impl. intros d ->. reflexivity.
      - revert Hws. apply forallb_impl. intros d ->. apply orb_true_r. }
    rewrite E in Hall. simpl in Hall.
    apply andb_true_iff in Hall. destruct Hall as [_ Hall].
    apply andb_true_iff in Hall. destruct Hall as [Hall _].
    apply orb_true_iff in Hall. exact Hall. }
  destruct (Z.eqb_spec x 120) as [->|H120];
    [destruct Hx as [Hx|Hx]; vm_compute in Hx; discriminate Hx|].
  destruct (Z.eqb_spec x 88) as [->|H88];
    [destruct Hx as [Hx|Hx]; vm_compute in Hx; discriminate Hx|].
  rewrite andb_false_r. reflexivity.
Qed.

Variable to_number : Z -> number.

Lemma parseInt_run sign ds ws :
  forallb is_digit ds = true -> forallb is_space ws = true -> ds <> [] ->
  forall s, strip_sign (trimStart s) = (sign, ds ++ ws) ->
  parseInt to_number s = to_number (sign * decimal ds).
Proof.
  intros Hds Hws Hne s E. unfold parseInt. rewrite E.
  rewrite (strip_prefix_decimal ds ws Hds Hws).
  rewrite (take_digits_run ds ws Hds Hws).
  destruct ds as [|c ds]; [congruence|].
  rewrite <- digits_value_map. reflexivity.
Qed.

Lemma parseInt_literal value :
  integer_literal (trim value) ->
  parseInt to_number value = to_number (literal_value (trim value)).
Proof.
  intros (sign & digits & E & Hsign & Hne & Hall).
  destruct (trimStart_trim value) as (ws & Hws & Es).
  apply forallb_digits in Hall.
  rewrite E in *. destruct Hsign as [->| ->]; simpl in *.
  - destruct digits as [|c d]; [congruence|].
    assert (Hc : is_digit c = true)
      by (simpl in Hall; apply andb_true_iff in Hall; tauto).
    assert (H45 : (c =? 45) = false).
    { destruct (Z.eqb_spec c 45) as [->|]; [discriminate Hc|reflexivity]. }
    assert (H43 : (c =? 43) = false).
    { destruct (Z.eqb_spec c 43) as [->|]; [discriminate Hc|reflexivity]. }
    rewrite (parseInt_run 1 (c :: d) ws Hall Hws Hne).
    + unfold literal_value. rewrite H45. f_equal; lia.
    + rewrite Es. simpl. rewrite H45, H43. reflexivity.
  - rewrite (parseInt_run (-1) digits ws Hall Hws Hne).
    + f_equal; lia.
    + rewrite Es. reflexivity.
Qed.

Lemma parseInt_blank value : trim value = [] -> parseInt to_number value = NaN.
Proof.
  intros H. unfold parseInt. rewrite (trim_empty_start _ H). reflexivity.
Qed.

(** X3. On every text [isInteger] accepts, [parseInt] returns the
    Number value of the integer the trimmed text spells, sign included;
    on a text whose trim is empty it returns [NaN]. *)
Theorem parseInt_of_integer :
  forall value,
    (Validation.isInteger value = true ->
     parseInt to_number value = to_number (literal_value (trim value)))
    /\ (trim value = [] -> parseInt to_number value = NaN).
Proof.
  intros value. split.
  - intros H. apply parseInt_literal, isInteger_literal, H.
  - apply parseInt_blank.
Qed.

End ParseInt.

Lemma parseInt_of_integer_witness :
  Validation.isInteger (lit " -12 ") = true
  /\ parseInt of_int (lit " -12 ") = of_int (-12).
Proof.
  assert (H : Validation.isInteger (lit " -12 ") = true) by reflexivity.
  destruct (parseInt_of_integer of_int (lit " -12 ")) as (Hp & _).
  exact (conj H (Hp H)).
Defined.

(** ** [handleCalculate] *)

Section Form.

Variable to_number : Z -> number.

(** Integers up to 2^53 in magnitude are Number values as they are;
    beyond, the conversion rounds, and stays beyond. *)
Hypothesis to_number_exact :
  forall z, - 9007199254740992 <= z <= 9007199254740992 ->
            to_number z = of_int z.
Hypothesis to_number_above :
  forall z, 9007199254740992 < z ->
            lt (of_int 9007199254740991) (to_number z) = true.
Hypothesis to_number_below :
  forall z, z < - 9007199254740992 ->
            lt (to_number z) (of_int (- 9007199254740991)) = true.

Lemma push_if_app acc e : Page.push_if acc e = acc ++ Page.push_if [] e.
Proof.
  unfold Page.push_if, push. destruct (is_empty e); simpl;
    [rewrite app_nil_r|]; reflexivity.
Qed.

Lemma push_if_nil e : Page.push_if [] e = [] <-> e = [].
Proof.
  unfold Page.push_if, push. destruct e; simpl; split; congruence.
Qed.

Lemma allErrors_shape st :
  Page.allErrors to_number st
  = Page.push_if [] (Validation.validateName (Page.name st))
    ++ Page.push_if []
         (Validation.validateNumericField (Page.locks st) (lit "Locks"))
    ++ Page.push_if []
         (Validation.validateNumericField (Page.stocks st) (lit "Stocks"))
    ++ Page.push_if []
         (Validation.validateNumericField (Page.barrels st) (lit "Barrels"))
    ++ Validation.validateInputRanges
         (Page.parsed to_number (Page.locks st))
         (Page.parsed to_number (Page.stocks st))
         (Page.parsed to_number (Page.barrels st)).
Proof.
  unfold Page.allErrors.
  rewrite (push_if_app (Page.push_if _ _)).
  rewrite (push_if_app (Page.push_if _ _)).
  rewrite (push_if_app (Page.push_if _ _)).
  rewrite <- !app_assoc. reflexivity.
Qed.

Lemma isClientValid_allErrors st :
  Page.isClientValid to_number st = true <-> Page.allErrors to_number st = [].
Proof.
  unfold Page.isClientValid.
  destruct (Page.allErrors to_number st); simpl; split; congruence.
Qed.

Lemma numeric_field_accepted value label :
  Validation.validateNumericField value label = []
  <-> integer_literal (trim value).
Proof.
  rewrite validateNumericField_cases, <- isInteger_literal.
  pose proof (emptyFieldMsg_nonempty label) as Hne.
  destruct (trim value) as [|c u] eqn:E; simpl.
  - split; [congruence|]. unfold Validation.isInteger. rewrite E.
    discriminate.
  - destruct (Validation.isInteger value); split; try congruence.
    intros H. vm_compute in H. discriminate H.
Qed.

Lemma number_check_false lo hi x :
  isNaN x || lt x (of_int lo) || gt x (of_int hi) = false
  <-> in_range lo hi x.
Proof.
  destruct x as [| | |q]; simpl; try (split; [discriminate|tauto]).
  unfold gt, lt, of_int.
  destruct (Qle_bool (inject_Z lo) q) eqn:E1;
    destruct (Qle_bool q (inject_Z hi)) eqn:E2; simpl;
    rewrite <- !Qle_bool_iff, E1, E2; intuition congruence.
Qed.

Lemma ranges_accepted l s b :
  Validation.validateInputRanges l s b = []
  <-> in_range 1 70 l /\ in_range 1 80 s /\ in_range 1 90 b.
Proof.
  rewrite validateInputRanges_reports, <- !number_check_false.
  unfold report.
  destruct (isNaN l || lt l (of_int 1) || gt l (of_int 70)),
    (isNaN s || lt s (of_int 1) || gt s (of_int 80)),
    (isNaN b || lt b (of_int 1) || gt b (of_int 90)); simpl;
    split; try discriminate; try tauto; intros (H1 & H2 & H3); discriminate.
Qed.

Lemma in_range_of_int lo hi z : in_range lo hi (of_int z) <-> lo <= z <= hi.
Proof. simpl. rewrite <- !Zle_Qle. tauto. Qed.

Lemma number_or_of_int z : number_or (of_int z) (of_int 0) = of_int z.
Proof.
  unfold number_or, truthy, of_int, Qeq_bool; simpl.
  rewrite Z.mul_1_r. destruct (Z.eqb_spec z 0) as [->|]; reflexivity.
Qed.

Lemma number_or_not_NaN x : isNaN (number_or x (of_int 0)) = false.
Proof. destruct x as [| | |q]; try reflexivity.
  unfold number_or. destruct (truthy (Fin q)); reflexivity.
Qed.

Lemma in_range_above lo hi x :
  hi <= 9007199254740991 ->
  lt (of_int 9007199254740991) x = true ->
  ~ in_range lo hi (number_or x (of_int 0)).
Proof.
  intros Hhi Hx. destruct x as [| | |q]; simpl in Hx; try discriminate.
  - simpl. tauto.
  - apply negb_true_iff in Hx.
    assert (Hq : (inject_Z 9007199254740991 < q)%Q).
    { apply Qnot_le_lt. intros H. apply Qle_bool_iff in H. congruence. }
    assert (Hnz : truthy (Fin q) = true).
    { simpl. apply negb_true_iff. apply not_true_is_false. intros H.
      apply Qeq_bool_iff in H. rewrite H in Hq.
      apply Qlt_not_le in Hq. apply Hq. rewrite <- (Zle_Qle 0). lia. }
    unfold number_or. rewrite Hnz. simpl. intros [_ H].
    apply (Qlt_not_le _ _ Hq).
    apply (Qle_trans _ _ _ H). rewrite <- Zle_Qle. exact Hhi.
Qed.

Lemma in_range_below lo hi x :
  1 <= lo ->
  lt x (of_int (- 9007199254740991)) = true ->
  ~ in_range lo hi (number_or x (of_int 0)).
Proof.
  intros Hlo Hx. destruct x as [| | |q]; simpl in Hx; try discriminate.
  - simpl. tauto.
  - apply negb_true_iff in Hx.
    assert (Hq : (q < inject_Z (- 9007199254740991))%Q).
    { apply Qnot_le_lt. intros H. apply Qle_bool_iff in H. congruence. }
    assert (Hnz : truthy (Fin q) = true).
    { simpl. apply negb_true_iff. apply not_true_is_false. intros H.
      apply Qeq_bool_iff in H. rewrite H in Hq.
      apply Qlt_not_le in Hq. apply Hq. rewrite <- (Zle_Qle _ 0). lia. }
    unfold number_or. rewrite Hnz. simpl. intros [H _].
    apply (Qlt_not_le _ _ Hq).
    apply (Qle_trans _ (inject_Z lo)); [|exact H].
    rewrite <- Zle_Qle. lia.
Qed.

(** The count read from a field that spells an integer is in range
    exactly when that integer is. *)
Lemma parsed_range hi field :
  hi <= 9007199254740991 ->
  integer_literal (trim field) ->
  (in_range 1 hi (Page.parsed to_number field)
   <-> 1 <= literal_value (trim field) <= hi).
Proof.
  intros Hhi Hlit. unfold Page.parsed.
  rewrite (parseInt_literal to_number field Hlit).
  set (z := literal_value (trim field)).
  destruct (Z_lt_le_dec 9007199254740992 z) as [Hbig|Hle].
  - split; [|lia]. intros H. exfalso.
    exact (in_range_above 1 hi _ Hhi (to_number_above z Hbig) H).
  - destruct (Z_lt_le_dec z (- 9007199254740992)) as [Hsmall|Hge].
    + split; [|lia]. intros H. exfalso.
      refine (in_range_below 1 hi _ _ (to_number_below z Hsmall) H). lia.
    + rewrite (to_number_exact z) by lia.
      rewrite number_or_of_int. apply in_range_of_int.
Qed.

(** X4. The form passes the client-side check exactly when the name is
    accepted by [validateName] and each of the three fields, trimmed,
    spells an integer within its bounds: 1..70 for locks, 1..80 for
    stocks, 1..90 for barrels. *)
Theorem isClientValid_iff :
  forall st,
    Page.isClientValid to_number st = true
    <-> Validation.validateName (Page.name st) = []
        /\ good_count 70 (Page.locks st)
        /\ good_count 80 (Page.stocks st)
        /\ good_count 90 (Page.barrels st).
Proof.
  intros st. rewrite isClientValid_allErrors, allErrors_shape.
  unfold good_count. split.
  - intros H.
    apply app_eq_nil in H. destruct H as [Hn H].
    apply app_eq_nil in H. destruct H as [Hl H].
    apply app_eq_nil in H. destruct H as [Hs H].
    apply app_eq_nil in H. destruct H as [Hb H].
    apply push_if_nil in Hn, Hl, Hs, Hb.
    apply numeric_field_accepted in Hl, Hs, Hb.
    apply ranges_accepted in H. destruct H as (Rl & Rs & Rb).
    apply parsed_range in Rl, Rs, Rb; try assumption; try lia.
    tauto.
  - intros (Hn & [Hl Rl] & [Hs Rs] & [Hb Rb]).
    apply parsed_range in Rl, Rs, Rb; try assumption; try lia.
    apply numeric_field_accepted with (label := lit "Locks") in Hl.
    apply numeric_field_accepted with (label := lit "Stocks") in Hs.
    apply numeric_field_accepted with (label := lit "Barrels") in Hb.
    rewrite Hn, Hl, Hs, Hb. simpl.
    apply ranges_accepted. tauto.
Qed.

Lemma trim_subset p s : forallb p s = true -> forallb p (trim s) = true.
Proof.
  destruct (trim_decompose s) as (ws & ws' & _ & _ & E).
  rewrite E at 1. rewrite !forallb_app, !andb_true_iff. tauto.
Qed.

Lemma parsed_good hi field :
  hi <= 9007199254740991 ->
  good_count hi field ->
  Page.parsed to_number field = of_int (literal_value (trim field)).
Proof.
  intros Hhi [Hlit Hr]. unfold Page.parsed.
  rewrite (parseInt_literal to_number field Hlit).
  rewrite to_number_exact by lia. apply number_or_of_int.
Qed.

(** X5. When the form passes, the request handed to the API carries the
    trimmed name, which [validateName] still accepts, and for each
    count the integer its field spells, within its bounds; so
    [validateInputRanges] has nothing to say about the request. *)
Theorem apiRequest_valid :
  forall st,
    Page.isClientValid to_number st = true ->
    let r := Page.apiRequest to_number st in
    CalculateRequest.name r = trim (Page.name st)
    /\ Validation.validateName (CalculateRequest.name r) = []
    /\ CalculateRequest.locks r
       = of_int (literal_value (trim (Page.locks st)))
    /\ CalculateRequest.stocks r
       = of_int (literal_value (trim (Page.stocks st)))
    /\ CalculateRequest.barrels r
       = of_int (literal_value (trim (Page.barrels st)))
    /\ 1 <= literal_value (trim (Page.locks st)) <= 70
    /\ 1 <= literal_value (trim (Page.stocks st)) <= 80
    /\ 1 <= literal_value (trim (Page.barrels st)) <= 90
    /\ Validation.validateInputRanges
         (CalculateRequest.locks r) (CalculateRequest.stocks r)
         (CalculateRequest.barrels r) = [].
Proof.
  intros st H r. subst r. apply isClientValid_iff in H.
  destruct H as (Hn & Hl & Hs & Hb). simpl.
  rewrite (parsed_good 70 _ ltac:(lia) Hl), (parsed_good 80 _ ltac:(lia) Hs),
    (parsed_good 90 _ ltac:(lia) Hb).
  destruct Hl as [_ Rl], Hs as [_ Rs], Hb as [_ Rb].
  split; [reflexivity|]. split.
  { apply names_accepted_validation in Hn. destruct Hn as [Hne Hall].
    apply names_accepted_validation. rewrite trim_idempotent.
    split; [exact Hne|apply trim_subset, Hall]. }
  repeat (split; [first [reflexivity|assumption]|]).
  apply ranges_accepted. rewrite !in_range_of_int. lia.
Qed.

Lemma name_piece n :
  Page.push_if [] (Validation.validateName n)
  = if is_empty (trim n) then [emptyNameMsg]
    else if all_of latin_char n then [] else [englishOnlyMsg].
Proof.
  rewrite validateName_validation_cases.
  destruct (is_empty (trim n)), (all_of latin_char n); reflexivity.
Qed.

Lemma field_piece v label :
  Page.push_if [] (Validation.validateNumericField v label)
  = if is_empty (trim v) then [emptyFieldMsg label]
    else if Validation.isInteger v then [] else [integerFormatMsg].
Proof.
  rewrite validateNumericField_cases.
  destruct (is_empty (trim v)), (Validation.isInteger v); reflexivity.
Qed.

Lemma parsed_blank field :
  trim field = [] -> Page.parsed to_number field = of_int 0.
Proof.
  intros H. unfold Page.parsed. rewrite (parseInt_blank to_number _ H).
  reflexivity.
Qed.

Lemma in_reports m a b c :
  In m (report a locksMsg ++ report b stocksMsg ++ report c barrelsMsg) ->
  m = locksMsg \/ m = stocksMsg \/ m = barrelsMsg.
Proof.
  destruct a, b, c; simpl; intuition auto.
Qed.

Lemma allErrors_nonempty_messages st :
  Forall (fun m => m <> []) (Page.allErrors to_number st).
Proof.
  rewrite allErrors_shape, name_piece, !field_piece.
  rewrite validateInputRanges_reports.
  repeat (apply Forall_app; split).
  - destruct (is_empty (trim (Page.name st)));
      [|destruct (all_of latin_char (Page.name st))];
      repeat constructor; discriminate.
  - destruct (is_empty (trim (Page.locks st)));
      [|destruct (Validation.isInteger (Page.locks st))];
      repeat constructor; discriminate.
  - destruct (is_empty (trim (Page.stocks st)));
      [|destruct (Validation.isInteger (Page.stocks st))];
      repeat constructor; discriminate.
  - destruct (is_empty (trim (Page.barrels st)));
      [|destruct (Validation.isInteger (Page.barrels st))];
      repeat constructor; discriminate.
  - unfold report. destruct (isNaN _ || _ || _); repeat constructor.
    discriminate.
  - unfold report. destruct (isNaN _ || _ || _); repeat constructor.
    discriminate.
  - unfold report. destruct (isNaN _ || _ || _); repeat constructor.
    discriminate.
Qed.

Variable add : number -> number -> number.

(** X6. When the form does not pass, the API is not consulted: whatever
    it would answer, [handleCalculate] appends the same invalid entry,
    with no sales and no commission and with the messages of
    [allErrors], of which there is at least one and none is empty; the
    loading flag is left as it was. *)
Theorem handleCalculate_invalid :
  forall st api,
    Page.isClientValid to_number st = false ->
    let st' := Page.handleCalculate to_number add st api in
    let e := Page.failedEntry to_number add st
               (Page.allErrors to_number st) in
    Page.entries st' = Page.entries st ++ [e]
    /\ Entry.isValid e = false
    /\ Entry.sales e = of_int 0
    /\ Entry.commission e = of_int 0
    /\ Entry.errors e <> []
    /\ Forall (fun m => m <> []) (Entry.errors e)
    /\ Page.isLoading st' = Page.isLoading st
    /\ (forall api', Page.handleCalculate to_number add st api' = st').
Proof.
  intros st api H st' e. subst st' e.
  assert (E : forall api',
             Page.handleCalculate to_number add st api'
             = Page.record_entry add
                 (Page.setFieldErrors st
                    (FieldErrors.mk
                       (Validation.validateName (Page.name st))
                       (Validation.validateNumericField
                          (Page.locks st) (lit "Locks"))
                       (Validation.validateNumericField
                          (Page.stocks st) (lit "Stocks"))
                       (Validation.validateNumericField
                          (Page.barrels st) (lit "Barrels"))))
                 (Page.failedEntry to_number add st
                    (Page.allErrors to_number st))).
  { intros api'. unfold Page.handleCalculate.
    change (Page.isClientValid to_number (Page.setFieldErrors st _))
      with (Page.isClientValid to_number st).
    rewrite H. reflexivity. }
  rewrite !E. simpl.
  repeat (split; [reflexivity|]).
  split.
  { intros Hnil. apply isClientValid_allErrors in Hnil. congruence. }
  split; [apply allErrors_nonempty_messages|].
  split; [reflexivity|]. intros api'. rewrite E. reflexivity.
Qed.

(** X7. Every run of [handleCalculate] appends exactly one entry,
    numbered one past the entry count, and moves the count on by one;
    the four inputs are left alone.  The entry is marked valid exactly
    when the form passed and the API resolved with [success] and a
    [data] part, and a valid entry carries no errors.  After a call to
    the API the loading flag is down. *)
Theorem handleCalculate_records_one_entry :
  forall st api,
    let st' := Page.handleCalculate to_number add st api in
    exists e,
      Page.entries st' = Page.entries st ++ [e]
      /\ Entry.id e = add (Page.entryCount st) (of_int 1)
      /\ Page.entryCount st' = add (Page.entryCount st) (of_int 1)
      /\ Page.name st' = Page.name st
      /\ Page.locks st' = Page.locks st
      /\ Page.stocks st' = Page.stocks st
      /\ Page.barrels st' = Page.barrels st
      /\ (Entry.isValid e = true
          <-> Page.isClientValid to_number st = true
              /\ exists response data,
                   api (Page.apiRequest to_number st) = Resolved response
                   /\ CalculateResponse.success response = true
                   /\ CalculateResponse.data response = Some data)
      /\ (Entry.isValid e = true -> Entry.errors e = [])
      /\ (Page.isClientValid to_number st = true ->
          Page.isLoading st' = false).
Proof.
  intros st api st'. subst st'. unfold Page.handleCalculate.
  change (Page.isClientValid to_number (Page.setFieldErrors st _))
    with (Page.isClientValid to_number st).
  change (Page.apiRequest to_number
            (Page.setIsLoading (Page.setFieldErrors st _) true))
    with (Page.apiRequest to_number st).
  destruct (Page.isClientValid to_number st) eqn:V; simpl.
  - destruct (api (Page.apiRequest to_number st)) as [response|message]
      eqn:A.
    + destruct response as [success data errors]; simpl.
      destruct success; [destruct data as [d|]|]; simpl.
      * eexists. split; [reflexivity|]. simpl.
        repeat (split; [reflexivity|]).
        split; [|split; reflexivity].
        split; [intros _|reflexivity]. split; [reflexivity|].
        eexists; eexists. repeat split; reflexivity.
      * eexists. split; [reflexivity|]. simpl.
        repeat (split; [reflexivity|]).
        split; [|split; [intros Hv; discriminate Hv|reflexivity]].
        split; [intros Hv; discriminate Hv|].
        intros (_ & r & d' & Hr & _ & Hd).
        injection Hr as <-. discriminate Hd.
      * eexists. split; [reflexivity|]. simpl.
        repeat (split; [reflexivity|]).
        split; [|split; [intros Hv; discriminate Hv|reflexivity]].
        split; [intros Hv; discriminate Hv|].
        intros (_ & r & d' & Hr & Hs & _).
        injection Hr as <-. discriminate Hs.
    + eexists. split; [reflexivity|]. simpl.
      repeat (split; [reflexivity|]).
      split; [|split; [intros Hv; discriminate Hv|reflexivity]].
      split; [intros Hv; discriminate Hv|].
      intros (_ & r & d' & Hr & _). discriminate Hr.
  - eexists. split; [reflexivity|]. simpl.
    repeat (split; [reflexivity|]).
    split; [|split; intros Hv; discriminate Hv].
    split; [intros Hv; discriminate Hv|].
    intros (Hv & _). discriminate Hv.
Qed.

(** X8. A count left blank is reported twice: by the request to enter
    it and, since a blank field is read as 0, by the message of its
    range. *)
Theorem blank_count_reported_twice :
  forall st,
    (trim (Page.locks st) = [] ->
     In (lit "Please enter Locks") (Page.allErrors to_number st)
     /\ In locksMsg (Page.allErrors to_number st))
    /\ (trim (Page.stocks st) = [] ->
        In (lit "Please enter Stocks") (Page.allErrors to_number st)
        /\ In stocksMsg (Page.allErrors to_number st))
    /\ (trim (Page.barrels st) = [] ->
        In (lit "Please enter Barrels") (Page.allErrors to_number st)
        /\ In barrelsMsg (Page.allErrors to_number st)).
Proof.
  intros st. rewrite allErrors_shape, !field_piece.
  rewrite validateInputRanges_reports.
  split; [|split]; intros H; rewrite H, (parsed_blank _ H); simpl is_empty;
    cbv iota; rewrite !in_app_iff; split.
  - right; left. left. reflexivity.
  - do 4 right. left. left. reflexivity.
  - do 2 right; left. left. reflexivity.
  - do 4 right. right; left. left. reflexivity.
  - do 3 right; left. left. reflexivity.
  - do 4 right. right; right. left. reflexivity.
Qed.

Lemma not_in_name_piece m n :
  m = locksMsg \/ m = stocksMsg \/ m = barrelsMsg ->
  ~ In m (Page.push_if [] (Validation.validateName n)).
Proof.
  intros Hm. rewrite name_piece.
  destruct (is_empty (trim n)); [|destruct (all_of latin_char n)]; simpl;
    intros H; destruct Hm as [->|[->| ->]];
    repeat (destruct H as [H|H]; [vm_compute in H; discriminate H|]);
    exact H.
Qed.

Lemma not_in_field_piece m v label :
  m = locksMsg \/ m = stocksMsg \/ m = barrelsMsg ->
  label = lit "Locks" \/ label = lit "Stocks" \/ label = lit "Barrels" ->
  ~ In m (Page.push_if [] (Validation.validateNumericField v label)).
Proof.
  intros Hm Hl. rewrite field_piece.
  destruct (is_empty (trim v)); [|destruct (Validation.isInteger v)]; simpl;
    intros H; destruct Hm as [->|[->| ->]]; destruct Hl as [->|[->| ->]];
    repeat (destruct H as [H|H]; [vm_compute in H; discriminate H|]);
    exact H.
Qed.

(** X9. The page never hands [NaN] to [validateInputRanges]: a field
    that does not start with a number is read as 0.  Each range message
    is among the errors of the form exactly when the count read from
    its field is outside its bounds. *)
Theorem range_messages_of_the_form :
  forall st,
    isNaN (Page.parsed to_number (Page.locks st)) = false
    /\ isNaN (Page.parsed to_number (Page.stocks st)) = false
    /\ isNaN (Page.parsed to_number (Page.barrels st)) = false
    /\ (In locksMsg (Page.allErrors to_number st)
        <-> ~ in_range 1 70 (Page.parsed to_number (Page.locks st)))
    /\ (In stocksMsg (Page.allErrors to_number st)
        <-> ~ in_range 1 80 (Page.parsed to_number (Page.stocks st)))
    /\ (In barrelsMsg (Page.allErrors to_number st)
        <-> ~ in_range 1 90 (Page.parsed to_number (Page.barrels st))).
Proof.
  intros st.
  repeat (split; [apply number_or_not_NaN|]).
  rewrite allErrors_shape, validateInputRanges_reports.
  pose proof (reports_spec
                (isNaN (Page.parsed to_number (Page.locks st))
                 || lt (Page.parsed to_number (Page.locks st)) (of_int 1)
                 || gt (Page.parsed to_number (Page.locks st)) (of_int 70))
                (isNaN (Page.parsed to_number (Page.stocks st))
                 || lt (Page.parsed to_number (Page.stocks st)) (of_int 1)
                 || gt (Page.parsed to_number (Page.stocks st)) (of_int 80))
                (isNaN (Page.parsed to_number (Page.barrels st))
                 || lt (Page.parsed to_number (Page.barrels st)) (of_int 1)
                 || gt (Page.parsed to_number (Page.barrels st)) (of_int 90)))
    as (Hl & Hs & Hb & _).
  rewrite <- !number_check, <- Hl, <- Hs, <- Hb.
  repeat split; rewrite ?in_app_iff; try tauto;
    intros [H|[H|[H|[H|H]]]]; try exact H; exfalso;
    try (revert H; apply not_in_name_piece; tauto);
    (revert H; apply not_in_field_piece; tauto).
Qed.

Lemma mark_locks_table (e1 e2 l1 l2 s1 s2 b1 b2 a b c : bool) :
  existsb (fun e => includes e (lit "Locks"))
    ((if e1 then [emptyNameMsg]
      else if e2 then [] else [englishOnlyMsg])
     ++ (if l1 then [emptyFieldMsg (lit "Locks")]
         else if l2 then [] else [integerFormatMsg])
     ++ (if s1 then [emptyFieldMsg (lit "Stocks")]
         else if s2 then [] else [integerFormatMsg])
     ++ (if b1 then [emptyFieldMsg (lit "Barrels")]
         else if b2 then [] else [integerFormatMsg])
     ++ report a locksMsg ++ report b stocksMsg ++ report c barrelsMsg)
  = l1 || a.
Proof.
  destruct e1, e2, l1, l2, s1, s2, b1, b2, a, b, c; vm_compute; reflexivity.
Qed.

Lemma mark_stocks_table (e1 e2 l1 l2 s1 s2 b1 b2 a b c : bool) :
  existsb (fun e => includes e (lit "Stocks"))
    ((if e1 then [emptyNameMsg]
      else if e2 then [] else [englishOnlyMsg])
     ++ (if l1 then [emptyFieldMsg (lit "Locks")]
         else if l2 then [] else [integerFormatMsg])
     ++ (if s1 then [emptyFieldMsg (lit "Stocks")]
         else if s2 then [] else [integerFormatMsg])
     ++ (if b1 then [emptyFieldMsg (lit "Barrels")]
         else if b2 then [] else [integerFormatMsg])
     ++ report a locksMsg ++ report b stocksMsg ++ report c barrelsMsg)
  = s1 || b.
Proof.
  destruct e1, e2, l1, l2, s1, s2, b1, b2, a, b, c; vm_compute; reflexivity.
Qed.

Lemma mark_barrels_table (e1 e2 l1 l2 s1 s2 b1 b2 a b c : bool) :
  existsb (fun e => includes e (lit "Barrels"))
    ((if e1 then [emptyNameMsg]
      else if e2 then [] else [englishOnlyMsg])
     ++ (if l1 then [emptyFieldMsg (lit "Locks")]
         else if l2 then [] else [integerFormatMsg])
     ++ (if s1 then [emptyFieldMsg (lit "Stocks")]
         else if s2 then [] else [integerFormatMsg])
     ++ (if b1 then [emptyFieldMsg (lit "Barrels")]
         else if b2 then [] else [integerFormatMsg])
     ++ report a locksMsg ++ report b stocksMsg ++ report c barrelsMsg)
  = b1 || c.
Proof.
  destruct e1, e2, l1, l2, s1, s2, b1, b2, a, b, c; vm_compute; reflexivity.
Qed.

Lemma blank_out_of_range hi field :
  is_empty (trim field) = true ->
  isNaN (Page.parsed to_number field)
  || lt (Page.parsed to_number field) (of_int 1)
  || gt (Page.parsed to_number field) (of_int hi) = true.
Proof.
  intros H. apply is_empty_spec in H. rewrite (parsed_blank _ H).
  reflexivity.
Qed.

Lemma blank_or_flag field flag :
  (is_empty (trim field) = true -> flag = true) ->
  is_empty (trim field) || flag = flag.
Proof.
  destruct (is_empty (trim field)); simpl; [|reflexivity].
  intros H. symmetry. apply H. reflexivity.
Qed.

(** X10. In the history, a count of an entry that failed the client-side
    check is marked exactly when the count read from its field is outside
    its bounds.  So a field such as "5abc", refused for not being an
    integer but read as 5, leaves the entry invalid with the format
    message and its count unmarked. *)
Theorem marked_iff_out_of_range :
  forall st,
    let e := Page.failedEntry to_number add st
               (Page.allErrors to_number st) in
    (Page.marked (lit "Locks") e = true
     <-> ~ in_range 1 70 (Page.parsed to_number (Page.locks st)))
    /\ (Page.marked (lit "Stocks") e = true
        <-> ~ in_range 1 80 (Page.parsed to_number (Page.stocks st)))
    /\ (Page.marked (lit "Barrels") e = true
        <-> ~ in_range 1 90 (Page.parsed to_number (Page.barrels st)))
    /\ (trim (Page.locks st) <> [] ->
        Validation.isInteger (Page.locks st) = false ->
        in_range 1 70 (Page.parsed to_number (Page.locks st)) ->
        In integerFormatMsg (Entry.errors e)
        /\ Page.marked (lit "Locks") e = false).
Proof.
  intros st e. subst e. unfold Page.marked. simpl.
  rewrite allErrors_shape, name_piece, !field_piece.
  rewrite validateInputRanges_reports.
  rewrite mark_locks_table, mark_stocks_table, mark_barrels_table.
  rewrite !blank_or_flag by apply blank_out_of_range.
  rewrite <- !number_check.
  repeat (split; [reflexivity|]).
  intros Hne Hint Hin.
  rewrite (is_empty_false _ Hne), Hint. split.
  - rewrite !in_app_iff. right; left. left. reflexivity.
  - apply number_check_false, Hin.
Qed.

End Form.

Lemma of_int_above z :
  9007199254740992 < z -> lt (of_int 9007199254740991) (of_int z) = true.
Proof.
  intros H. unfold lt, of_int, Qle_bool; simpl.
  rewrite Z.mul_1_r. apply negb_true_iff, Z.leb_gt. lia.
Qed.

Lemma of_int_below z :
  z < - 9007199254740992 ->
  lt (of_int z) (of_int (- 9007199254740991)) = true.
Proof.
  intros H. unfold lt, of_int, Qle_bool; simpl.
  rewrite Z.mul_1_r. apply negb_true_iff, Z.leb_gt. lia.
Qed.

Lemma isClientValid_iff_witness :
  Page.isClientValid of_int
    (filled_form (lit "Ken") (lit "10") (lit " 20 ") (lit "90")) = true
  <-> Validation.validateName (lit "Ken") = []
      /\ good_count 70 (lit "10")
      /\ good_count 80 (lit " 20 ")
      /\ good_count 90 (lit "90").
Proof.
  exact (isClientValid_iff of_int
           (fun z _ => eq_refl) of_int_above of_int_below
           (filled_form (lit "Ken") (lit "10") (lit " 20 ") (lit "90"))).
Defined.

Lemma apiRequest_valid_witness :
  Page.isClientValid of_int
    (filled_form (lit " Ken ") (lit "10") (lit " 20 ") (lit "90")) = true
  /\ Page.apiRequest of_int
       (filled_form (lit " Ken ") (lit "10") (lit " 20 ") (lit "90"))
     = CalculateRequest.mk (lit "Ken") (of_int 10) (of_int 20) (of_int 90).
Proof.
  assert (H : Page.isClientValid of_int
                (filled_form (lit " Ken ") (lit "10") (lit " 20 ") (lit "90"))
              = true) by reflexivity.
  pose proof (apiRequest_valid of_int
                (fun z _ => eq_refl) of_int_above of_int_below
                (filled_form (lit " Ken ") (lit "10") (lit " 20 ") (lit "90"))
                H) as (Hn & _ & Hl & Hs & Hb & _).
  split; [exact H|].
  destruct (Page.apiRequest of_int
              (filled_form (lit " Ken ") (lit "10") (lit " 20 ") (lit "90")))
    as [n l s b]; simpl in *.
  rewrite Hn, Hl, Hs, Hb. reflexivity.
Defined.

Lemma handleCalculate_invalid_witness :
  Page.isClientValid of_int
    (filled_form (lit "Ken") (lit "5abc") (lit "") (lit "90")) = false
  /\ Page.isLoading
       (Page.handleCalculate of_int plain_add
          (filled_form (lit "Ken") (lit "5abc") (lit "") (lit "90"))
          (fun _ => Thrown None))
     = false.
Proof.
  assert (H : Page.isClientValid of_int
                (filled_form (lit "Ken") (lit "5abc") (lit "") (lit "90"))
              = false) by reflexivity.
  destruct (handleCalculate_invalid of_int plain_add
              (filled_form (lit "Ken") (lit "5abc") (lit "") (lit "90"))
              (fun _ => Thrown None) H)
    as (_ & _ & _ & _ & _ & _ & Hl & _).
  exact (conj H Hl).
Defined.

Lemma handleCalculate_records_one_entry_witness :
  exists e,
    Page.entries
      (Page.handleCalculate of_int plain_add
         (filled_form (lit "Ken") (lit "10") (lit "20") (lit "30"))
         (fun _ => Thrown None))
    = [e]
    /\ Entry.id e = of_int 1.
Proof.
  destruct (handleCalculate_records_one_entry of_int plain_add
              (filled_form (lit "Ken") (lit "10") (lit "20") (lit "30"))
              (fun _ => Thrown None))
    as (e & He & Hid & _).
  exists e. split; [exact He|exact Hid].
Defined.

Lemma blank_count_reported_twice_witness :
  trim (lit "  ") = []
  /\ In locksMsg
       (Page.allErrors of_int
          (filled_form (lit "Ken") (lit "  ") (lit "20") (lit "30"))).
Proof.
  assert (H : trim (lit "  ") = []) by reflexivity.
  destruct (blank_count_reported_twice of_int
              (filled_form (lit "Ken") (lit "  ") (lit "20") (lit "30")))
    as (Hl & _).
  exact (conj H (proj2 (Hl H))).
Defined.

Lemma marked_iff_out_of_range_witness :
  Validation.isInteger (lit "5abc") = false
  /\ Page.marked (lit "Locks")
       (Page.failedEntry of_int plain_add
          (filled_form (lit "Ken") (lit "5abc") (lit "20") (lit "30"))
          (Page.allErrors of_int
             (filled_form (lit "Ken") (lit "5abc") (lit "20") (lit "30"))))
     = false.
Proof.
  assert (Hi : Validation.isInteger (lit "5abc") = false) by reflexivity.
  destruct (marked_iff_out_of_range of_int plain_add
              (filled_form (lit "Ken") (lit "5abc") (lit "20") (lit "30")))
    as (_ & _ & _ & H).
  refine (conj Hi (proj2 (H _ Hi _))).
  - vm_compute. discriminate.
  - vm_compute. split; discriminate.
Defined.

(** ** The numbering of the history *)

Section History.

Variable to_number : Z -> number.
Variable add : number -> number -> number.

(** Adding 1 to a count below 2^53 is exact. *)
Hypothesis add_exact :
  forall n, 0 <= n < 9007199254740992 ->
            add (of_int n) (of_int 1) = of_int (n + 1).

Lemma filter_all {A} (f : A -> bool) l :
  (forall x, In x l -> f x = true) -> filter f l = l.
Proof.
  induction l as [|a l IH]; simpl; intros H; [reflexivity|].
  rewrite (H a) by (left; reflexivity). f_equal. apply IH.
  intros x Hx. apply H. right. exact Hx.
Qed.

Lemma of_int_inj a b : of_int a = of_int b -> a = b.
Proof. unfold of_int, inject_Z. intros H. injection H as H. exact H. Qed.

Lemma strict_neq_of_int a b :
  strict_neq (of_int a) (of_int b) = negb (a =? b).
Proof.
  unfold strict_neq, of_int, Qeq_bool; simpl. rewrite !Z.mul_1_r.
  reflexivity.
Qed.

Lemma NoDup_map_filter {A B} (f : A -> B) (p : A -> bool) l :
  NoDup (map f l) -> NoDup (map f (filter p l)).
Proof.
  induction l as [|a l IH]; simpl; intros H; [constructor|].
  inversion H as [|x xs Hnot Hnd]; subst.
  destruct (p a); simpl; [|apply IH, Hnd].
  constructor; [|apply IH, Hnd].
  intros Hin. apply Hnot. apply in_map_iff in Hin.
  destruct Hin as (y & Hy & Hin). apply filter_In in Hin.
  apply in_map_iff. exists y. tauto.
Qed.

Lemma numbered_delete n st id :
  numbered n st -> numbered n (Page.handleDeleteEntry st id).
Proof.
  intros (Hn & Hc & Hall & Hnd). destruct st as [nm l s b ld es ec fe].
  unfold numbered, Page.handleDeleteEntry, Page.setEntries in *;
    simpl in *.
  split; [exact Hn|]. split; [exact Hc|]. split.
  - rewrite Forall_forall in *. intros e He. apply filter_In in He.
    apply Hall, He.
  - apply NoDup_map_filter, Hnd.
Qed.

Lemma handleCalculate_appends st api :
  exists e,
    Page.entries (Page.handleCalculate to_number add st api)
    = Page.entries st ++ [e]
    /\ Entry.id e = add (Page.entryCount st) (of_int 1)
    /\ Page.entryCount (Page.handleCalculate to_number add st api)
       = add (Page.entryCount st) (of_int 1).
Proof.
  unfold Page.handleCalculate.
  destruct (negb (Page.isClientValid to_number (Page.setFieldErrors st _)));
    [eexists; repeat split; reflexivity|].
  destruct (api _) as [[[|] [d|] errors]|message];
    eexists; repeat split; reflexivity.
Qed.

Lemma numbered_calculate n st api :
  n < 9007199254740992 ->
  numbered n st ->
  numbered (n + 1) (Page.handleCalculate to_number add st api).
Proof.
  intros Hb (Hn & Hc & Hall & Hnd).
  destruct (handleCalculate_appends st api) as (e & He & Hid & Hcount).
  rewrite Hc, add_exact in Hid, Hcount by lia.
  unfold numbered. rewrite He, Hcount.
  split; [lia|]. split; [reflexivity|]. split.
  - apply Forall_app. split.
    + revert Hall. apply Forall_impl. intros x (k & Hk & Hx).
      exists k. split; [lia|exact Hx].
    + constructor; [|constructor]. exists (n + 1). split; [lia|exact Hid].
  - rewrite map_app. apply NoDup_app; [exact Hnd| |].
    + simpl. constructor; [simpl; tauto|constructor].
    + intros a Ha [<-|[]]. apply in_map_iff in Ha.
      destruct Ha as (x & Hx & Hin).
      rewrite Forall_forall in Hall.
      destruct (Hall x Hin) as (k & Hk & Hxk).
      rewrite Hid, Hxk in Hx. apply of_int_inj in Hx. lia.
Qed.

Lemma delete_exact n st l1 e l2 :
  numbered n st ->
  Page.entries st = l1 ++ e :: l2 ->
  Page.entries (Page.handleDeleteEntry st (Entry.id e)) = l1 ++ l2.
Proof.
  intros (_ & _ & Hall & Hnd) E.
  destruct st as [nm l s b ld es ec fe]. simpl in *. subst es.
  rewrite map_app in Hnd. simpl in Hnd.
  apply NoDup_remove in Hnd. destruct Hnd as [_ Hnot].
  rewrite Forall_forall in Hall.
  destruct (Hall e) as (ke & _ & Hke);
    [apply in_or_app; right; left; reflexivity|].
  assert (Hkeep : forall x, In x (l1 ++ l2) ->
                    strict_neq (Entry.id x) (Entry.id e) = true).
  { intros x Hx.
    destruct (Hall x) as (kx & _ & Hkx).
    { apply in_app_or in Hx. apply in_or_app.
      destruct Hx; [left|right; right]; assumption. }
    rewrite Hkx, Hke, strict_neq_of_int.
    apply negb_true_iff, Z.eqb_neq. intros ->.
    apply Hnot. rewrite <- map_app, Hke, <- Hkx.
    apply in_map, Hx. }
  rewrite filter_app. simpl.
  replace (strict_neq (Entry.id e) (Entry.id e)) with false
    by (rewrite Hke, strict_neq_of_int, Z.eqb_refl; reflexivity).
  rewrite !filter_all; [reflexivity| |];
    intros x Hx; apply Hkeep, in_or_app; [right|left]; exact Hx.
Qed.

(** X11. Once the history is numbered up to the entry count, with no
    number used twice, every handler keeps it so: deleting keeps the
    count, a run of [handleCalculate] numbers its entry one past it, and
    clearing starts again from 0.  On such a history deleting by the
    number of an entry removes that entry and nothing else, and
    deleting the entry just recorded gives back the history as it was.
    Adding 1 is taken to be exact below 2^53. *)
Theorem history_numbers_stay_distinct :
  forall n st,
    numbered n st ->
    (forall id, numbered n (Page.handleDeleteEntry st id))
    /\ (forall api,
          n < 9007199254740992 ->
          numbered (n + 1) (Page.handleCalculate to_number add st api))
    /\ numbered 0 (Page.handleClearHistory st)
    /\ (forall l1 e l2,
          Page.entries st = l1 ++ e :: l2 ->
          Page.entries (Page.handleDeleteEntry st (Entry.id e)) = l1 ++ l2)
    /\ (forall api,
          n < 9007199254740992 ->
          Page.entries
            (Page.handleDeleteEntry
               (Page.handleCalculate to_number add st api)
               (add (Page.entryCount st) (of_int 1)))
          = Page.entries st).
Proof.
  intros n st H.
  split; [intros id; apply numbered_delete, H|].
  split; [intros api Hb; apply numbered_calculate; assumption|].
  split.
  { unfold numbered. simpl. repeat split; try lia; constructor. }
  split; [intros l1 e l2; apply (delete_exact n), H|].
  intros api Hb.
  pose proof (numbered_calculate n st api Hb H) as H'.
  destruct (handleCalculate_appends st api) as (e & He & Hid & _).
  rewrite <- Hid.
  rewrite (delete_exact (n + 1) _ (Page.entries st) e [] H');
    [apply app_nil_r|exact He].
Qed.

End History.

Lemma Qred_inject_Z z : Qred (inject_Z z) = inject_Z z.
Proof.
  unfold Qred, inject_Z.
  pose proof (Z.ggcd_gcd z 1) as Hg.
  pose proof (Z.ggcd_correct_divisors z 1) as Hd.
  destruct (Z.ggcd z 1) as [g [aa bb]]. simpl in *.
  rewrite Z.gcd_1_r in Hg. subst g. destruct Hd as [Ha Hb].
  rewrite Z.mul_1_l in Ha, Hb. subst aa bb. reflexivity.
Qed.

Lemma plain_add_exact n : plain_add (of_int n) (of_int 1) = of_int (n + 1).
Proof.
  unfold plain_add, of_int. f_equal.
  rewrite <- (Qred_inject_Z (n + 1)). apply Qred_complete.
  unfold Qeq, Qplus, inject_Z; simpl. lia.
Qed.

Lemma history_numbers_stay_distinct_witness :
  numbered 2
    (Page.handleCalculate of_int plain_add
       (Page.handleCalculate of_int plain_add
          (filled_form (lit "Ken") (lit "10") (lit "20") (lit "30"))
          (fun _ => Thrown None))
       (fun _ => Thrown None))
  /\ exists e1 e2,
       Page.entries
         (Page.handleCalculate of_int plain_add
            (Page.handleCalculate of_int plain_add
               (filled_form (lit "Ken") (lit "10") (lit "20") (lit "30"))
               (fun _ => Thrown None))
            (fun _ => Thrown None))
       = [e1; e2]
       /\ Entry.id e1 = of_int 1
       /\ Entry.id e2 = of_int 2
       /\ Page.entries
            (Page.handleDeleteEntry
               (Page.handleCalculate of_int plain_add
                  (Page.handleCalculate of_int plain_add
                     (filled_form (lit "Ken") (lit "10") (lit "20")
                        (lit "30"))
                     (fun _ => Thrown None))
                  (fun _ => Thrown None))
               (Entry.id e1))
          = [e2].
Proof.
  assert (H0 : numbered 0
                 (filled_form (lit "Ken") (lit "10") (lit "20") (lit "30"))).
  { unfold numbered. simpl. repeat split; try lia; constructor. }
  destruct (history_numbers_stay_distinct of_int plain_add
              (fun n _ => plain_add_exact n) 0 _ H0) as (_ & H1 & _).
  specialize (H1 (fun _ => Thrown None) ltac:(lia)).
  destruct (history_numbers_stay_distinct of_int plain_add
              (fun n _ => plain_add_exact n) 1 _ H1) as (_ & H2 & _).
  specialize (H2 (fun _ => Thrown None) ltac:(lia)).
  split; [exact H2|].
  destruct (history_numbers_stay_distinct of_int plain_add
              (fun n _ => plain_add_exact n) 2 _ H2) as (_ & _ & _ & Hd & _).
  do 2 eexists.
  split; [vm_compute; reflexivity|].
  split; [vm_compute; reflexivity|].
  split; [vm_compute; reflexivity|].
  apply (Hd [] _ [_]). vm_compute. reflexivity.
Defined.


(** ** The totals and the size of the error list *)

Section Totals.

Variable to_number : Z -> number.
Variable add : number -> number -> number.



Lemma push_if_length e : (List.length (Page.push_if [] e) <= 1)%nat.
Proof. unfold Page.push_if, push. destruct (is_empty e); simpl; lia. Qed.

(** X13. The error list of a form holds at most seven messages, and a
    form just reset reaches that: the request for each of the four
    inputs followed by the three range messages. *)
Theorem allErrors_at_most_seven :
  forall st,
    (List.length (Page.allErrors to_number st) <= 7)%nat
    /\ Page.allErrors to_number (Page.handleReset st)
       = [emptyNameMsg; lit "Please enter Locks"; lit "Please enter Stocks";
          lit "Please enter Barrels"; locksMsg; stocksMsg; barrelsMsg].
Proof.
  intros st. split; [|reflexivity].
  rewrite allErrors_shape, validateInputRanges_reports, !length_app.
  pose proof (push_if_length (Validation.validateName (Page.name st))).
  pose proof (push_if_length
                (Validation.validateNumericField (Page.locks st)
                   (lit "Locks"))).
  pose proof (push_if_length
                (Validation.validateNumericField (Page.stocks st)
                   (lit "Stocks"))).
  pose proof (push_if_length
                (Validation.validateNumericField (Page.barrels st)
                   (lit "Barrels"))).
  unfold report.
  destruct (isNaN _ || _ || _), (isNaN _ || _ || _), (isNaN _ || _ || _);
    cbn [List.length]; lia.
Qed.

End Totals.

